(** * YouTube downloader: formatter, sanitizer, metadata extractor and
      download orchestrator of [Main.py], embedded and verified.

    Python [str] values are modelled as [string]; a character is an [ascii]
    read as a code point below 256.  Python [int] is [Z].  Functions that can
    raise return [option] (or an explicit outcome type), [None] standing for
    the raised exception. *)

From Stdlib Require Import ZArith List Bool Lia Arith.
From Stdlib Require Import Strings.String Strings.Ascii.
From Stdlib Require Import Numbers.DecimalString Numbers.DecimalZ Numbers.DecimalPos Decimal.
From Stdlib Require Import Sorting.Permutation Sorting.Sorted.
Import ListNotations.

Local Open Scope string_scope.
Local Open Scope Z_scope.

(** ** Python string primitives used by the program *)

Module PyStr.

(** [list(s)]: the characters of a string. *)
Definition chars (s : string) : list ascii := list_ascii_of_string s.

(** [str.isspace] on one character, which is also what [\s] matches in a
    [str] pattern: TAB..CR, FS..US, SPACE, NEL and NBSP (code points < 256). *)
Definition is_space (c : ascii) : bool :=
  let n := nat_of_ascii c in
  ((9 <=? n) && (n <=? 13) || (28 <=? n) && (n <=? 32)
   || (n =? 133) || (n =? 160))%nat.

(** [s[:n]] *)
Fixpoint take (n : nat) (s : string) : string :=
  match n, s with
  | O, _ => EmptyString
  | S _, EmptyString => EmptyString
  | S k, String c r => String c (take k r)
  end.

(** [s.lstrip()] *)
Fixpoint lstrip (s : string) : string :=
  match s with
  | EmptyString => EmptyString
  | String c r => if is_space c then lstrip r else s
  end.

(** [s.rstrip()] *)
Fixpoint rstrip (s : string) : string :=
  match s with
  | EmptyString => EmptyString
  | String c r =>
      match rstrip r with
      | EmptyString => if is_space c then EmptyString else String c EmptyString
      | r' => String c r'
      end
  end.

(** [s.strip()] *)
Definition strip (s : string) : string := rstrip (lstrip s).

(** [re.sub(cls, '', s)] for a one-character class [cls]. *)
Fixpoint remove_chars (cls : ascii -> bool) (s : string) : string :=
  match s with
  | EmptyString => EmptyString
  | String c r => if cls c then remove_chars cls r else String c (remove_chars cls r)
  end.

(** [s.replace(c, '')] for a one-character [c]. *)
Definition remove_char (c : ascii) (s : string) : string :=
  remove_chars (Ascii.eqb c) s.

(** [re.sub(r'\s+', ' ', s)]: each maximal whitespace run becomes one space.
    [in_run] tells that the previous character belonged to the current run. *)
Fixpoint collapse_ws (in_run : bool) (s : string) : string :=
  match s with
  | EmptyString => EmptyString
  | String c r =>
      if is_space c
      then (if in_run then collapse_ws true r else String " " (collapse_ws true r))
      else String c (collapse_ws false r)
  end.

(** [hay.startswith(needle)] *)
Definition startswith (needle hay : string) : bool := String.prefix needle hay.

(** [needle in hay] *)
Fixpoint contains (needle hay : string) : bool :=
  String.prefix needle hay ||
  match hay with
  | EmptyString => false
  | String _ r => contains needle r
  end.

(** What [needle in hay] decides. *)
Definition is_substring (needle hay : string) : Prop :=
  exists before after, hay = before ++ needle ++ after.

(** [s.lower()] on one character (A..Z, and the Latin-1 capitals). *)
Definition lower_char (c : ascii) : ascii :=
  let n := nat_of_ascii c in
  if ((65 <=? n) && (n <=? 90)
      || (192 <=? n) && (n <=? 222) && negb (n =? 215))%nat
  then ascii_of_nat (n + 32) else c.

(** [s.lower()] *)
Fixpoint lower (s : string) : string :=
  match s with
  | EmptyString => EmptyString
  | String c r => String (lower_char c) (lower r)
  end.

(** [str(n)] for an [int]. *)
Definition str_of_int (z : Z) : string := NilZero.string_of_int (Z.to_int z).

(** [int(s)] on an optional minus sign followed by decimal digits, the only
    shape this program feeds it; [None] is [ValueError]. *)
Definition int_of_str (s : string) : option Z :=
  option_map Z.of_int (NilZero.int_of_string s).

(** [format(n, '02d')] *)
Definition pad2 (z : Z) : string :=
  let s := str_of_int z in
  if (String.length s <? 2)%nat then "0" ++ s else s.

(** [s.count(c)] for a one-character [c]. *)
Fixpoint count_char (c : ascii) (s : string) : nat :=
  match s with
  | EmptyString => O
  | String d r => ((if Ascii.eqb c d then 1 else 0) + count_char c r)%nat
  end.

Definition is_digit (c : ascii) : bool :=
  let n := nat_of_ascii c in ((48 <=? n) && (n <=? 57))%nat.

(** Two neighbouring whitespace characters somewhere in [s]. *)
Fixpoint adjacent_ws (s : string) : bool :=
  match s with
  | EmptyString => false
  | String c r =>
      match r with
      | EmptyString => false
      | String d _ => (is_space c && is_space d) || adjacent_ws r
      end
  end.

Definition first_char (s : string) : option ascii :=
  match s with EmptyString => None | String c _ => Some c end.

Fixpoint last_char (s : string) : option ascii :=
  match s with
  | EmptyString => None
  | String c r => match last_char r with None => Some c | x => x end
  end.

Definition is_space_opt (o : option ascii) : bool :=
  match o with None => false | Some c => is_space c end.

End PyStr.

(** ** Filename sanitizer *)

Module Sanitizer.
Import PyStr.

(** The character class of the first pattern: less-than, greater-than,
    colon, double quote, slash, backslash, bar, question mark, star. *)
Definition invalid_chars : list ascii :=
  ["<"; ">"; ":"; "034"; "/"; "092"; "|"; "?"; "*"]%char.

Definition is_invalid (c : ascii) : bool := existsb (Ascii.eqb c) invalid_chars.

Definition sanitize_filename (filename : string) : string :=
  let filename := remove_chars is_invalid filename in
  let filename := collapse_ws false filename in
  take 100 (strip filename).

End Sanitizer.

(** ** The sanitizer as the specification words it

    A second definition, on character lists and with the Standard Library's
    [filter] and [firstn], to compare [Sanitizer.sanitize_filename] with:
    strip the forbidden characters, take the whitespace-separated words,
    join them by single spaces, keep the first 100 characters. *)

Module SanitizerSpec.
Import PyStr.

Definition allowed (c : ascii) : bool := negb (Sanitizer.is_invalid c).

(** [c] in front of the words of what follows: it opens a word of its own
    when a whitespace character (or nothing) follows it, and joins the
    first word otherwise. *)
Definition push_char (c : ascii) (opens_word : bool) (ws : list (list ascii))
  : list (list ascii) :=
  match ws with
  | w :: rest => if opens_word then [c] :: ws else (c :: w) :: rest
  | [] => [[c]]
  end.

(** The maximal runs of characters that are not whitespace, in order. *)
Fixpoint words (l : list ascii) : list (list ascii) :=
  match l with
  | [] => []
  | c :: r =>
      if is_space c then words r
      else push_char c (match r with d :: _ => is_space d | [] => true end) (words r)
  end.

(** The words with one space between neighbours. *)
Fixpoint join_words (ws : list (list ascii)) : list ascii :=
  match ws with
  | [] => []
  | w :: rest =>
      match rest with
      | [] => w
      | _ :: _ => (w ++ " "%char :: join_words rest)%list
      end
  end.

Definition sanitize_spec (filename : string) : list ascii :=
  firstn 100 (join_words (words (filter allowed (chars filename)))).

End SanitizerSpec.

(** ** Formatter *)

Module Formatter.
Import PyStr.

(** [format_duration(seconds)]; [None] is Python's [None]. *)
Definition format_duration (seconds : option Z) : string :=
  match seconds with
  | None => "Unknown"
  | Some d =>
      if d =? 0 then "Unknown"
      else
        let minutes := d / 60 in
        let seconds := d mod 60 in
        let hours := minutes / 60 in
        let minutes := minutes mod 60 in
        if negb (hours =? 0)
        then pad2 hours ++ ":" ++ pad2 minutes ++ ":" ++ pad2 seconds
        else pad2 minutes ++ ":" ++ pad2 seconds
  end.

Definition size_names : list string := ["B"; "KB"; "MB"; "GB"].

(** [int(math.floor(math.log(b, 1024)))] for an integer [b >= 1], taken as
    the exact floor of the logarithm (binary64 rounding of [math.log] is not
    modelled; it agrees with the exact floor at and next to every power of
    1024 up to [1024^4]). *)
Definition log1024_floor (b : Z) : Z := Z.log2 b / 10.

(** [round(num / den, 2)] in hundredths, [den] a power of two and [num]
    below [2^53], so that the quotient is an exact binary64 value and
    [round] resolves exact ties to the even neighbour. *)
Definition round2 (num den : Z) : Z :=
  let n := 100 * num in
  let q := n / den in
  let r := n mod den in
  if 2 * r <? den then q
  else if den <? 2 * r then q + 1
  else if Z.even q then q else q + 1.

(** [str(x)] of the binary64 value with [h] hundredths, [0 <= h]: at least
    one and at most two decimals. *)
Definition float_repr (h : Z) : string :=
  let ip := h / 100 in
  let fp := h mod 100 in
  str_of_int ip ++ "." ++
  (if fp mod 10 =? 0 then str_of_int (fp / 10) else pad2 fp).

(** [format_file_size(size_bytes)]; [None] stands for a raised exception:
    [ValueError] from [math.log] on a negative count, [IndexError] from
    [size_names[i]]. *)
Definition format_file_size (size_bytes : Z) : option string :=
  if size_bytes =? 0 then Some "0B"
  else if size_bytes <? 0 then None
  else
    let i := log1024_floor size_bytes in
    let p := 1024 ^ i in
    let s := round2 size_bytes p in
    match nth_error size_names (Z.to_nat i) with
    | Some name => Some (float_repr s ++ " " ++ name)
    | None => None
    end.

End Formatter.

(** ** Metadata extractor: quality derivation *)

Module Metadata.
Import PyStr.

(** One entry of [info['formats']], restricted to the keys the program
    reads.  For [vcodec] and [height], [None] is a missing key or a [None]
    value, which the program does not tell apart.  For [format_note] it
    does: [None] is a missing key, [Some None] a key present with the value
    [None], [Some (Some n)] a key present with the [str] [n]. *)
Record format_descriptor : Type := mkFormat {
  vcodec : option string;
  height : option Z;
  format_note : option (option string)
}.

(** A quality label, [f"{height}p"]. *)
Definition label (h : Z) : string := str_of_int h ++ "p".

(** [f.get('vcodec') and f.get('vcodec') != 'none'] *)
Definition has_video (f : format_descriptor) : bool :=
  match vcodec f with
  | None => false
  | Some v => negb (String.eqb v EmptyString) && negb (String.eqb v "none")
  end.

(** [height and height > 0] on [f.get('height')] *)
Definition positive_height (f : format_descriptor) : option Z :=
  match height f with
  | None => None
  | Some h => if negb (h =? 0) && (0 <? h) then Some h else None
  end.

(** A descriptor counts for the primary tier when it advertises a video
    codec and a positive height. *)
Definition contributes (f : format_descriptor) (h : Z) : Prop :=
  has_video f = true /\ height f = Some h /\ 0 < h.

Definition mem (x : string) (s : list string) : bool := existsb (String.eqb x) s.

(** [s.add(x)] on a set kept as a duplicate-free list.  Python leaves the
    iteration order of a set open; the order kept here is first insertion,
    and the sorted result is shown not to depend on it. *)
Definition set_add (x : string) (s : list string) : list string :=
  if mem x s then s else (s ++ [x])%list.

(** [set(l)] *)
Definition set_of_list (l : list string) : list string :=
  fold_left (fun s x => set_add x s) l [].

(** The first loop of [get_video_info] (source lines 39 to 47). *)
Definition collect_heights (formats : list format_descriptor) : list string :=
  fold_left
    (fun video_qualities f =>
       if has_video f then
         match positive_height f with
         | Some h => set_add (label h) video_qualities
         | None => video_qualities
         end
       else video_qualities)
    formats [].

(** The sort key, [int(x.replace('p', ''))]. *)
Definition quality_key (x : string) : option Z := int_of_str (remove_char "p" x).

(** Insertion into a list kept in descending key order; an element goes in
    front of the first one whose key does not exceed its own, which keeps
    the sort stable. *)
Fixpoint insert_desc (x : Z * string) (l : list (Z * string)) : list (Z * string) :=
  match l with
  | [] => [x]
  | y :: r => if fst y <=? fst x then x :: l else y :: insert_desc x r
  end.

Fixpoint sort_desc (l : list (Z * string)) : list (Z * string) :=
  match l with
  | [] => []
  | x :: r => insert_desc x (sort_desc r)
  end.

(** Descending order of the decorated pairs. *)
Definition key_ge (a b : Z * string) : Prop := fst b <= fst a.

(** Keys are computed for every element before any comparison; a failing
    key aborts the sort. *)
Fixpoint decorate (l : list string) : option (list (Z * string)) :=
  match l with
  | [] => Some []
  | x :: r =>
      match quality_key x, decorate r with
      | Some k, Some d => Some ((k, x) :: d)
      | _, _ => None
      end
  end.

(** [sorted(l, key=lambda x: int(x.replace('p', '')), reverse=True)];
    [None] is the [ValueError] of [int]. *)
Definition sorted_by_height_desc (l : list string) : option (list string) :=
  option_map (fun d => map snd (sort_desc d)) (decorate l).

(** Source lines 38 to 52: the primary, height-based derivation. *)
Definition primary_qualities (formats : list format_descriptor) : option (list string) :=
  sorted_by_height_desc (collect_heights formats).

(** The [elif] chain on the lower-cased format note. *)
Definition note_label (format_note : string) : option string :=
  if contains "tiny" format_note then Some "144p"
  else if contains "small" format_note then Some "240p"
  else if contains "medium" format_note then Some "360p"
  else if contains "large" format_note then Some "480p"
  else if contains "hd720" format_note then Some "720p"
  else if contains "hd1080" format_note then Some "1080p"
  else None.

(** [f.get('format_note', '').lower()]: the default stands in for a
    missing key only, so a note that is [None] reaches [.lower()] and
    raises [AttributeError], here [None]. *)
Definition lowered_note (f : format_descriptor) : option string :=
  match format_note f with
  | None => Some (lower EmptyString)
  | Some None => None
  | Some (Some n) => Some (lower n)
  end.

(** The second loop (source lines 56 to 69), appending to
    [video_qualities]; it stops at the first note that raises. *)
Fixpoint collect_notes_loop (formats : list format_descriptor)
  (video_qualities : list string) : option (list string) :=
  match formats with
  | [] => Some video_qualities
  | f :: rest =>
      match lowered_note f with
      | None => None
      | Some format_note =>
          collect_notes_loop rest
            (match note_label format_note with
             | Some q => (video_qualities ++ [q])%list
             | None => video_qualities
             end)
      end
  end.

Definition collect_notes (formats : list format_descriptor) : option (list string) :=
  collect_notes_loop formats [].

(** What the derivation ends in: the list, or [str(e)] of the exception
    raised on the way. *)
Inductive outcome : Type :=
| Qualities (video_qualities : list string)
| Raises (message : string).

(** [str(e)] of the [AttributeError] of [None.lower()]. *)
Definition attribute_error : string :=
  "'NoneType' object has no attribute 'lower'".

(** [str(e)] of the [ValueError] of [int], up to the quoted literal. *)
Definition value_error : string := "invalid literal for int() with base 10".

(** Source lines 38 to 73. *)
Definition derive (formats : list format_descriptor) : outcome :=
  match primary_qualities formats with
  | None => Raises value_error
  | Some [] =>
      match collect_notes formats with
      | None => Raises attribute_error
      | Some notes =>
          match sorted_by_height_desc (set_of_list notes) with
          | Some q => Qualities q
          | None => Raises value_error
          end
      end
  | Some q => Qualities q
  end.

(** The [video_qualities] entry of the result; [None] is an exception,
    which [get_video_info] turns into its own [None] result. *)
Definition video_qualities (formats : list format_descriptor) : option (list string) :=
  match derive formats with
  | Qualities q => Some q
  | Raises _ => None
  end.

(** The keyword table the specification gives for the fallback tier. *)
Definition keyword_table : list (string * string) :=
  [("tiny", "144p"); ("small", "240p"); ("medium", "360p");
   ("large", "480p"); ("hd720", "720p"); ("hd1080", "1080p")].

Definition video (h : Z) : format_descriptor :=
  mkFormat (Some "avc1.4d401f") (Some h) None.
Definition audio_only : format_descriptor :=
  mkFormat (Some "none") None None.
Definition noted (n : string) : format_descriptor :=
  mkFormat (Some "avc1.4d401f") None (Some (Some n)).
(** A descriptor whose note is present with the value [None]. *)
Definition none_noted : format_descriptor :=
  mkFormat (Some "vp9") None (Some None).

End Metadata.

(** ** The extraction library boundary and the effects of the program *)

Module Effects.

Definition bytes : Type := list Byte.byte.

(** The option dictionary handed to [yt_dlp.YoutubeDL]; a key the caller
    does not set is [None] (or the empty list). *)
Record ydl_opts : Type := mkOpts {
  opt_format : option string;
  opt_outtmpl : option string;
  opt_postprocessors : list (list (string * string));
  opt_quiet : bool;
  opt_no_warnings : bool
}.

(** The keys of the dictionary [extract_info] returns that the program
    reads; [None] is a missing key. *)
Record info_dict : Type := mkInfo {
  info_title : option string;
  info_duration : option Z;
  info_uploader : option string;
  info_view_count : option Z;
  info_formats : option (list Metadata.format_descriptor);
  info_thumbnail : option string;
  info_id : option string
}.

(** What one call of [ydl.extract_info] does: it raises (with [str(e)]), or
    it returns the dictionary and leaves the files of the transient
    directory, given as (name, content) in [os.listdir] order. *)
Inductive ydl_outcome : Type :=
| Raised (message : string)
| Returned (info : info_dict) (listing : list (string * bytes)).

(** The external library: options, URL and the [download] flag. *)
Definition library : Type := ydl_opts -> string -> bool -> ydl_outcome.

(** What the program does to the outside, in order.  Display calls are
    recorded by what they show, not by their decorated text; static page
    decoration (title, headings, dividers, columns) leaves no event.  The
    view count is recorded as the number itself: [format_views] prints it
    through a binary64 division, which is not modelled. *)
Inductive event : Type :=
| LibraryCall (opts : ydl_opts) (url : string) (download : bool)
| StError (message : string)
| ShowVideoInfo (thumbnail : option string) (title uploader duration : string)
                (view_count : Z)
| ShowPreparing (mode : string) (quality : option string)
| ShowReady (mode filename size : string) (quality : option string)
| OfferDownload (label : string) (data : bytes) (file_name mime : string)
| ShowFailed (mode : string)
| ShowInstructions.

(** A computation with a trace; [None] is an exception nobody caught. *)
Definition io (A : Type) : Type := (option A * list event)%type.

Definition ret {A : Type} (a : A) : io A := (Some a, []).
Definition uncaught {A : Type} : io A := (None, []).
Definition emit (e : event) : io unit := (Some tt, [e]).
Definition bind {A B : Type} (m : io A) (k : A -> io B) : io B :=
  match m with
  | (Some a, t) => let (b, t') := k a in (b, (t ++ t')%list)
  | (None, t) => (None, t)
  end.

Definition trace {A : Type} (m : io A) : list event := snd m.
Definition value {A : Type} (m : io A) : option A := fst m.

Definition is_library_call (e : event) : bool :=
  match e with LibraryCall _ _ _ => true | _ => false end.

End Effects.

Declare Scope io_scope.
Delimit Scope io_scope with io.
Notation "x <- m ;; k" := (Effects.bind m (fun x => k))
  (at level 61, m at next level, right associativity) : io_scope.
Notation "m ;; k" := (Effects.bind m (fun _ => k))
  (at level 61, right associativity) : io_scope.

(** ** Download orchestrator *)

Module Download.
Import PyStr Effects.
Local Open Scope io_scope.

(** [os.path.join(dir, name)] *)
Definition path_join (dir name : string) : string := dir ++ "/" ++ name.

(** [os.path.exists(path)] and [open(path, 'rb').read()] for a path inside
    the transient directory. *)
Definition read_path (temp_dir : string) (listing : list (string * bytes))
  (path : string) : option bytes :=
  option_map snd
    (find (fun e => String.eqb (path_join temp_dir (fst e)) path) listing).

Definition audio_opts (temp_file_path : string) : ydl_opts :=
  mkOpts (Some "bestaudio/best") (Some (temp_file_path ++ ".%(ext)s"))
    [[("key", "FFmpegExtractAudio"); ("preferredcodec", "mp3");
      ("preferredquality", "192")]]
    true true.

(** The pair a download function returns. *)
Definition result : Type := (option bytes * option string)%type.

(** [str(e)] of the [KeyError] raised by [info['title']]. *)
Definition key_error_title : string := "'title'".

(** [str(e)] of the [FileNotFoundError] raised by [open]. *)
Definition no_such_file (path : string) : string :=
  "[Errno 2] No such file or directory: '" ++ path ++ "'".

(** [download_audio_to_memory(url)]; [temp_dir] is the directory
    [tempfile.TemporaryDirectory()] hands out. *)
Definition download_audio_to_memory (lib : library) (temp_dir url : string)
  : io result :=
  let temp_file_path := path_join temp_dir "audio" in
  let ydl_opts := audio_opts temp_file_path in
  emit (LibraryCall ydl_opts url true) ;;
  match lib ydl_opts url true with
  | Raised e =>
      emit (StError ("Error downloading audio: " ++ e)) ;; ret (None, None)
  | Returned info listing =>
      let mp3_file := temp_file_path ++ ".mp3" in
      match read_path temp_dir listing mp3_file with
      | Some file_data =>
          match info_title info with
          | Some title =>
              let filename := Sanitizer.sanitize_filename title ++ ".mp3" in
              ret (Some file_data, Some filename)
          | None =>
              emit (StError ("Error downloading audio: " ++ key_error_title)) ;;
              ret (None, None)
          end
      | None =>
          emit (StError "MP3 file not found after conversion") ;;
          ret (None, None)
      end
  end.

(** The format-selection expression (source lines 135 to 139). *)
Definition format_selector (quality : string) : string :=
  if String.eqb quality "best" then "best[ext=mp4]/best"
  else
    let height := remove_char "p" quality in
    "best[height<=" ++ height ++ "][ext=mp4]/best[height<=" ++ height ++ "]/best".

Definition video_opts (temp_file_path quality : string) : ydl_opts :=
  mkOpts (Some (format_selector quality)) (Some (temp_file_path ++ ".%(ext)s"))
    [[("key", "FFmpegVideoConvertor"); ("preferedformat", "mp4")]]
    true true.

(** [[f for f in os.listdir(temp_dir) if f.startswith("video")]] *)
Definition downloaded_files (listing : list (string * bytes)) : list string :=
  filter (startswith "video") (map fst listing).

(** [download_video_to_memory(url, quality)] *)
Definition download_video_to_memory (lib : library) (temp_dir url quality : string)
  : io result :=
  let temp_file_path := path_join temp_dir "video" in
  let ydl_opts := video_opts temp_file_path quality in
  emit (LibraryCall ydl_opts url true) ;;
  match lib ydl_opts url true with
  | Raised e =>
      emit (StError ("Error downloading video: " ++ e)) ;; ret (None, None)
  | Returned info listing =>
      match downloaded_files listing with
      | first :: _ =>
          let downloaded_file := path_join temp_dir first in
          match read_path temp_dir listing downloaded_file with
          | Some file_data =>
              match info_title info with
              | Some title =>
                  let filename := Sanitizer.sanitize_filename title ++ ".mp4" in
                  ret (Some file_data, Some filename)
              | None =>
                  emit (StError ("Error downloading video: " ++ key_error_title)) ;;
                  ret (None, None)
              end
          | None =>
              emit (StError ("Error downloading video: " ++
                             no_such_file downloaded_file)) ;;
              ret (None, None)
          end
      | [] =>
          emit (StError "Video file not found after download") ;;
          ret (None, None)
      end
  end.

(** The two modes of the orchestrator and their extensions. *)
Inductive mode : Type := Audio | Video.

Definition expected_extension (m : mode) : string :=
  match m with Audio => ".mp3" | Video => ".mp4" end.

Definition download (lib : library) (temp_dir url : string) (m : mode)
  (quality : string) : io result :=
  match m with
  | Audio => download_audio_to_memory lib temp_dir url
  | Video => download_video_to_memory lib temp_dir url quality
  end.

(** The word for a mode in the error messages. *)
Definition mode_name (m : mode) : string :=
  match m with Audio => "audio" | Video => "video" end.

(** The options a mode hands to the library. *)
Definition opts_of (temp_dir : string) (m : mode) (quality : string) : ydl_opts :=
  match m with
  | Audio => audio_opts (path_join temp_dir "audio")
  | Video => video_opts (path_join temp_dir "video") quality
  end.

(** The file a mode reads after the library returns. *)
Definition produced_file (m : mode) (listing : list (string * bytes))
  : option (string * bytes) :=
  match m with
  | Audio => find (fun e => String.eqb (fst e) "audio.mp3") listing
  | Video => find (fun e => startswith "video" (fst e)) listing
  end.

End Download.

(** ** Metadata extractor and main flow *)

Module App.
Import PyStr Effects.
Local Open Scope io_scope.

(** The record [get_video_info] returns. *)
Record video_info : Type := mkVideoInfo {
  title : string;
  duration : Z;
  uploader : string;
  view_count : Z;
  video_qualities : list string;
  thumbnail : string;
  id : string
}.

Definition get {A : Type} (o : option A) (default : A) : A :=
  match o with Some a => a | None => default end.

Definition info_opts : ydl_opts := mkOpts None None [] true true.

(** [get_video_info(url)]; the inner [None] is the function's own [None]. *)
Definition get_video_info (lib : library) (url : string) : io (option video_info) :=
  emit (LibraryCall info_opts url false) ;;
  match lib info_opts url false with
  | Raised e =>
      emit (StError ("Error extracting video info: " ++ e)) ;; ret None
  | Returned info _ =>
      let formats := get (info_formats info) [] in
      match Metadata.derive formats with
      | Metadata.Qualities qualities =>
          ret (Some (mkVideoInfo
                       (get (info_title info) "Unknown")
                       (get (info_duration info) 0)
                       (get (info_uploader info) "Unknown")
                       (get (info_view_count info) 0)
                       qualities
                       (get (info_thumbnail info) EmptyString)
                       (get (info_id info) EmptyString)))
      | Metadata.Raises message =>
          emit (StError ("Error extracting video info: " ++ message)) ;;
          ret None
      end
  end.

(** What the page widgets return on one run of the script. *)
Record ui_inputs : Type := mkUi {
  text_input : string;
  enter_clicked : bool;
  mp3_btn : bool;
  mp4_btn : bool;
  selectbox : nat
}.

(** [file_data and filename] *)
Definition both_truthy (r : Download.result) : option (bytes * string) :=
  match r with
  | (Some file_data, Some filename) =>
      match file_data, filename with
      | [], _ => None
      | _, EmptyString => None
      | _, _ => Some (file_data, filename)
      end
  | _ => None
  end.

(** The body of one download button: prepare, download, then offer the
    file or report the failure. *)
Definition download_section (m : Download.mode) (quality : option string)
  (label mime : string) (call : io Download.result) : io unit :=
  let mode_name := match m with Download.Audio => "audio" | Download.Video => "video" end in
  emit (ShowPreparing mode_name quality) ;;
  r <- call ;;
  match both_truthy r with
  | Some (file_data, filename) =>
      match Formatter.format_file_size (Z.of_nat (List.length file_data)) with
      | Some file_size =>
          emit (ShowReady mode_name filename file_size quality) ;;
          emit (OfferDownload label file_data filename mime)
      | None => uncaught
      end
  | None => emit (ShowFailed mode_name)
  end.

Definition accepted_substrings : list string :=
  ["youtube.com/watch"; "youtu.be/"; "youtube.com/shorts"].

(** ["youtube.com/watch" in url or "youtu.be/" in url or
     "youtube.com/shorts" in url] *)
Definition valid_url (url : string) : bool :=
  contains "youtube.com/watch" url || contains "youtu.be/" url
  || contains "youtube.com/shorts" url.

(** [main()], one run of the script.  [temp_dir_audio] and [temp_dir_video]
    are the directories the two download calls would be handed. *)
Definition main (lib : library) (temp_dir_audio temp_dir_video : string)
  (ui : ui_inputs) : io unit :=
  let url := text_input ui in
  if negb (String.eqb url EmptyString) then
    if negb (valid_url url) then
      emit (StError "Please enter a valid YouTube URL")
    else
      video_info <- get_video_info lib url ;;
      match video_info with
      | Some video_info =>
          emit (ShowVideoInfo
                  (if String.eqb (thumbnail video_info) EmptyString then None
                   else Some (thumbnail video_info))
                  (title video_info) (uploader video_info)
                  (Formatter.format_duration (Some (duration video_info)))
                  (view_count video_info)) ;;
          (if mp3_btn ui then
             download_section Download.Audio None "Download MP3 File" "audio/mpeg"
               (Download.download_audio_to_memory lib temp_dir_audio url)
           else ret tt) ;;
          let qualities := "best" :: video_qualities video_info in
          let selected_quality := nth (selectbox ui) qualities "best" in
          (if mp4_btn ui then
             download_section Download.Video (Some selected_quality)
               "Download MP4 File" "video/mp4"
               (Download.download_video_to_memory lib temp_dir_video url
                  selected_quality)
           else ret tt) ;;
          emit ShowInstructions
      | None => emit ShowInstructions
      end
  else emit ShowInstructions.

End App.

(** ** Sample library behaviours, for evaluating the program *)

Module Samples.
Import Effects.

Definition sample_info : info_dict :=
  mkInfo (Some "My: Video?") (Some 3661) (Some "Someone") (Some 1500)
    (Some [Metadata.video 720; Metadata.audio_only]) None (Some "abc123").

Definition webm_bytes : bytes := [Byte.x1a; Byte.x45; Byte.xdf; Byte.xa3].
Definition mp4_bytes : bytes := [Byte.x00; Byte.x00; Byte.x00; Byte.x18].
Definition mp3_bytes : bytes := [Byte.x49; Byte.x44; Byte.x33].

(** A library whose every call raises. *)
Definition lib_raises : library := fun _ _ _ => Raised "network unreachable".

(** A library that returns and leaves the given files behind. *)
Definition lib_leaves (listing : list (string * bytes)) : library :=
  fun _ _ _ => Returned sample_info listing.

Definition webm_first : list (string * bytes) :=
  [("video.webm", webm_bytes); ("video.mp4", mp4_bytes)].
Definition mp4_first : list (string * bytes) :=
  [("video.mp4", mp4_bytes); ("video.webm", webm_bytes)].

Definition rejected_ui : App.ui_inputs :=
  App.mkUi "https://example.com/watch?v=1" true true true 0.
Definition accepted_ui : App.ui_inputs :=
  App.mkUi "https://youtu.be/abc123" true false false 0.

End Samples.

(** * Verification *)

(** ** Facts about the string primitives *)

Section StringFacts.
Import PyStr.

Lemma chars_cons c s : chars (String c s) = c :: chars s.
Proof. reflexivity. Qed.

Lemma take_length n s : (String.length (take n s) <= n)%nat.
Proof.
  revert s; induction n as [|n IH]; intros [|c r]; simpl; try lia.
  specialize (IH r); lia.
Qed.

Lemma take_chars n s c : In c (chars (take n s)) -> In c (chars s).
Proof.
  revert s; induction n as [|n IH]; intros [|d r]; simpl; try tauto.
  intros [H|H]; [now left | right; now apply IH].
Qed.

Lemma take_adjacent_ws n s : adjacent_ws s = false -> adjacent_ws (take n s) = false.
Proof.
  revert s; induction n as [|n IH]; intros [|c r]; simpl; trivial.
  destruct r as [|d r']; [destruct n; reflexivity|].
  intros H; apply orb_false_iff in H as [H1 H2].
  specialize (IH _ H2).
  destruct n as [|n']; [reflexivity|].
  change (take (S n') (String d r')) with (String d (take n' r')) in *.
  simpl. rewrite H1. exact IH.
Qed.

Lemma lstrip_chars s c : In c (chars (lstrip s)) -> In c (chars s).
Proof.
  induction s as [|d r IH]; simpl; trivial.
  destruct (is_space d); simpl; auto.
Qed.

Lemma lstrip_first s : is_space_opt (first_char (lstrip s)) = false.
Proof.
  induction s as [|d r IH]; simpl; trivial.
  destruct (is_space d) eqn:E; simpl; trivial.
Qed.

Lemma adjacent_ws_tail c s : adjacent_ws (String c s) = false -> adjacent_ws s = false.
Proof.
  destruct s as [|d r]; simpl; trivial.
  intros H; now apply orb_false_iff in H as [_ H].
Qed.

Lemma lstrip_adjacent_ws s : adjacent_ws s = false -> adjacent_ws (lstrip s) = false.
Proof.
  induction s as [|d r IH]; trivial.
  intros H. simpl lstrip. destruct (is_space d); trivial.
  apply IH. now apply adjacent_ws_tail in H.
Qed.

Lemma rstrip_chars s c : In c (chars (rstrip s)) -> In c (chars s).
Proof.
  induction s as [|d r IH]; simpl; trivial.
  destruct (rstrip r) eqn:E.
  - destruct (is_space d); simpl; tauto.
  - rewrite chars_cons. intros [H|H]; [now left | right; now apply IH].
Qed.

Lemma rstrip_first s :
  is_space_opt (first_char s) = false -> is_space_opt (first_char (rstrip s)) = false.
Proof.
  destruct s as [|d r]; simpl; trivial.
  intros H. destruct (rstrip r); [rewrite H|]; simpl; trivial.
Qed.

Lemma rstrip_last s : is_space_opt (last_char (rstrip s)) = false.
Proof.
  induction s as [|d r IH]; simpl; trivial.
  destruct (rstrip r) as [|e r'] eqn:E.
  - destruct (is_space d) eqn:Ed; simpl; trivial.
  - change (last_char (String d (String e r')))
      with (match last_char (String e r') with None => Some d | x => x end).
    destruct (last_char (String e r')) eqn:El; [exact IH|].
    simpl in El. destruct (last_char r'); discriminate.
Qed.

Lemma rstrip_adjacent_ws s : adjacent_ws s = false -> adjacent_ws (rstrip s) = false.
Proof.
  induction s as [|d r IH]; trivial.
  intros H. pose proof (adjacent_ws_tail _ _ H) as Ht. specialize (IH Ht).
  simpl rstrip. destruct (rstrip r) as [|e r'] eqn:E.
  - destruct (is_space d); reflexivity.
  - destruct r as [|e0 r0]; [discriminate|].
    assert (e0 = e) as ->.
    { simpl in E. destruct (rstrip r0); [destruct (is_space e0)|]; congruence. }
    simpl in H. apply orb_false_iff in H as [H1 _].
    simpl. simpl in IH. rewrite H1. exact IH.
Qed.

Lemma remove_chars_spec cls s c :
  In c (chars (remove_chars cls s)) -> cls c = false /\ In c (chars s).
Proof.
  induction s as [|d r IH]; simpl; [tauto|].
  destruct (cls d) eqn:E.
  - intros H; destruct (IH H); auto.
  - rewrite chars_cons. intros [<-|H]; [auto|]. destruct (IH H); auto.
Qed.

Lemma remove_chars_id cls s :
  (forall c, In c (chars s) -> cls c = false) -> remove_chars cls s = s.
Proof.
  induction s as [|d r IH]; simpl; trivial.
  intros H. rewrite (H d) by now left. f_equal. apply IH. intros c Hc. apply H. now right.
Qed.

Lemma collapse_ws_chars b s c :
  In c (chars (collapse_ws b s)) ->
  (c = " "%char \/ (In c (chars s) /\ is_space c = false)).
Proof.
  revert b; induction s as [|d r IH]; intros b; simpl; [tauto|].
  destruct (is_space d) eqn:E.
  - destruct b.
    + intros H. destruct (IH _ H) as [?|[? ?]]; auto.
    + rewrite chars_cons. intros [<-|H]; [auto|].
      destruct (IH _ H) as [?|[? ?]]; auto.
  - rewrite chars_cons. intros [<-|H]; [auto|].
    destruct (IH _ H) as [?|[? ?]]; auto.
Qed.

Lemma collapse_ws_in_run s :
  is_space_opt (first_char (collapse_ws true s)) = false.
Proof.
  induction s as [|d r IH]; simpl; trivial.
  destruct (is_space d) eqn:E; simpl; trivial.
Qed.

Lemma adjacent_ws_cons c s :
  adjacent_ws s = false ->
  is_space c && is_space_opt (first_char s) = false ->
  adjacent_ws (String c s) = false.
Proof.
  destruct s as [|d r]; simpl; trivial.
  intros -> ->; reflexivity.
Qed.

Lemma collapse_ws_adjacent b s : adjacent_ws (collapse_ws b s) = false.
Proof.
  revert b; induction s as [|d r IH]; intros b; simpl; trivial.
  destruct (is_space d) eqn:E.
  - destruct b; [apply IH|].
    apply adjacent_ws_cons; [apply IH|].
    rewrite collapse_ws_in_run. apply andb_false_r.
  - apply adjacent_ws_cons; [apply IH|]. now rewrite E.
Qed.

Lemma lstrip_id s : is_space_opt (first_char s) = false -> lstrip s = s.
Proof. destruct s as [|d r]; simpl; trivial. now intros ->. Qed.

Lemma last_char_none s : last_char s = None -> s = EmptyString.
Proof.
  destruct s as [|d r]; simpl; trivial. destruct (last_char r); discriminate.
Qed.

Lemma rstrip_id s : is_space_opt (last_char s) = false -> rstrip s = s.
Proof.
  induction s as [|d r IH]; simpl; trivial.
  destruct (last_char r) eqn:E.
  - intros H. rewrite (IH H). destruct r; [discriminate|reflexivity].
  - apply last_char_none in E as ->. simpl. now intros ->.
Qed.

Lemma strip_idempotent s : strip (strip s) = strip s.
Proof.
  unfold strip.
  rewrite (lstrip_id (rstrip (lstrip s))) by apply rstrip_first, lstrip_first.
  apply rstrip_id, rstrip_last.
Qed.

(** What [adjacent_ws] decides. *)
Lemma adjacent_ws_false s :
  adjacent_ws s = false ->
  forall p a b q, s = p ++ String a (String b q) ->
                  is_space a && is_space b = false.
Proof.
  intros H p; revert s H; induction p as [|c p IH]; intros s H a b q ->.
  - simpl in H. now apply orb_false_iff in H as [H _].
  - simpl append in H. apply adjacent_ws_tail in H. eapply IH; eauto.
Qed.

End StringFacts.

(** ** The sanitizer against its specification *)

Section SanitizerSpecFacts.
Import PyStr Sanitizer SanitizerSpec.

Lemma chars_take n t : chars (take n t) = firstn n (chars t).
Proof.
  revert t; induction n as [|n IH]; intros [|c r]; simpl; trivial.
  f_equal. apply IH.
Qed.

Lemma chars_remove_chars cls s :
  chars (remove_chars cls s) = filter (fun c => negb (cls c)) (chars s).
Proof.
  induction s as [|c r IH]; simpl; trivial.
  destruct (cls c); simpl; [exact IH|]. f_equal. exact IH.
Qed.

Lemma chars_nil s : chars s = [] -> s = EmptyString.
Proof. destruct s; [reflexivity | discriminate]. Qed.

(** Trimming on the left after collapsing is collapsing as if a run were
    already open. *)
Lemma lstrip_collapse b u : lstrip (collapse_ws b u) = collapse_ws true u.
Proof.
  destruct u as [|c r]; simpl; trivial.
  destruct (is_space c) eqn:Ec.
  - destruct b; [|simpl]; apply lstrip_id, collapse_ws_in_run.
  - simpl. now rewrite Ec.
Qed.

Lemma rstrip_nonspace c X :
  is_space c = false -> rstrip (String c X) = String c (rstrip X).
Proof. intros Ec. simpl. rewrite Ec. now destruct (rstrip X). Qed.

Lemma push_char_nonempty c b ws : push_char c b ws <> [].
Proof. destruct ws; simpl; [|destruct b]; discriminate. Qed.

Lemma words_nonempty l : Forall (fun w => w <> []) (words l).
Proof.
  induction l as [|c r IH]; simpl; [constructor|].
  destruct (is_space c); trivial.
  unfold push_char. destruct (words r) as [|w rest].
  - constructor; [discriminate | constructor].
  - inversion IH as [|? ? Hw Hrest]; subst.
    destruct (match r with [] => true | d :: _ => is_space d end).
    + constructor; [discriminate | constructor; trivial].
    + constructor; [discriminate | trivial].
Qed.

Lemma join_words_nonempty w rest :
  w <> [] -> join_words (w :: rest) <> [].
Proof.
  intros Hw. simpl. destruct rest; trivial.
  destruct w; [contradiction | discriminate].
Qed.

Lemma join_words_cons_char c w rest :
  join_words ((c :: w) :: rest) = c :: join_words (w :: rest).
Proof. simpl. now destruct rest. Qed.

(** Collapsing and trimming a string gives its words joined by spaces. *)
Lemma rstrip_collapse_words u :
  chars (rstrip (collapse_ws true u)) = join_words (words (chars u)).
Proof.
  induction u as [|c r IH]; trivial.
  rewrite chars_cons. cbn [collapse_ws words].
  destruct (is_space c) eqn:Ec; [exact IH|].
  rewrite rstrip_nonspace, chars_cons by exact Ec.
  destruct r as [|d r']; [reflexivity|].
  rewrite chars_cons in *. cbn [collapse_ws] in *.
  pose proof (words_nonempty (d :: chars r')) as Hne.
  destruct (is_space d) eqn:Ed.
  - cbn [words] in *. rewrite Ed in *.
    cbn [rstrip]. destruct (words (chars r')) as [|w rest] eqn:Ew.
    + simpl in IH. apply chars_nil in IH. rewrite IH. reflexivity.
    + inversion Hne as [|? ? Hw _]; subst.
      destruct (rstrip (collapse_ws true r')) as [|e Y] eqn:Ey.
      * exfalso. symmetry in IH. simpl in IH.
        now apply (join_words_nonempty w rest Hw).
      * cbn [push_char join_words]. rewrite chars_cons, IH. reflexivity.
  - cbn [words] in IH, Hne |- *. rewrite Ed in IH, Hne |- *.
    set (W := push_char d match chars r' with [] => true | e :: _ => is_space e end
                (words (chars r'))) in *.
    destruct W as [|w rest] eqn:EW; [now apply push_char_nonempty in EW|].
    cbn [push_char]. rewrite join_words_cons_char. f_equal. exact IH.
Qed.

(** [words] cuts at whitespace and nowhere else. *)
Lemma words_single w :
  w <> [] -> Forall (fun c => is_space c = false) w -> words w = [w].
Proof.
  induction w as [|a r IH]; [contradiction|]. intros _ Hall.
  inversion Hall as [|? ? Ha Hr]; subst. cbn [words]. rewrite Ha.
  destruct r as [|b r']; [reflexivity|].
  inversion Hr as [|? ? Hb _]; subst. rewrite Hb.
  rewrite IH by (trivial; discriminate). reflexivity.
Qed.

Lemma words_app w c l :
  w <> [] -> Forall (fun a => is_space a = false) w -> is_space c = true ->
  words (w ++ c :: l) = w :: words l.
Proof.
  induction w as [|a r IH]; [contradiction|]. intros _ Hall Hc.
  inversion Hall as [|? ? Ha Hr]; subst.
  rewrite <- app_comm_cons. cbn [words]. rewrite Ha.
  destruct r as [|b r'].
  - rewrite app_nil_l. cbn [words]. rewrite Hc. unfold push_char.
    now destruct (words l).
  - inversion Hr as [|? ? Hb _]; subst.
    rewrite IH by (trivial; discriminate).
    rewrite <- app_comm_cons. rewrite Hb. reflexivity.
Qed.

Lemma words_leading_space c l : is_space c = true -> words (c :: l) = words l.
Proof. intros Hc. cbn [words]. now rewrite Hc. Qed.

Example words_examples :
  words (chars "  My  great video ")
  = [chars "My"; chars "great"; chars "video"] /\
  join_words [chars "My"; chars "great"; chars "video"] = chars "My great video" /\
  sanitize_spec "  My  <great>  video? " = chars "My great video".
Proof. vm_compute. repeat split. Qed.

(** The program computes what the specification words. *)
Lemma sanitize_filename_refines s : chars (sanitize_filename s) = sanitize_spec s.
Proof.
  unfold sanitize_filename, sanitize_spec, strip.
  rewrite chars_take, lstrip_collapse, rstrip_collapse_words, chars_remove_chars.
  reflexivity.
Qed.

End SanitizerSpecFacts.

(** ** Filename sanitizer *)

Section SanitizerFacts.
Import PyStr Sanitizer.

(** C6: the sanitized name is the first 100 characters of the name's
    whitespace-separated words, forbidden characters taken out first,
    joined by single spaces: every maximal whitespace run between two words
    has become one space and the runs at either end are gone.  So it holds
    none of the nine forbidden characters, no two neighbouring whitespace
    characters (the only whitespace left is the single space a run was
    collapsed to), is the first 100 characters of a string trimmed at both
    ends, and is at most 100 characters long. *)
Theorem sanitize_filename_spec (s : string) :
  let r := sanitize_filename s in
  chars r =
  firstn 100
    (SanitizerSpec.join_words
       (SanitizerSpec.words (filter SanitizerSpec.allowed (chars s)))) /\
  (forall c, In c (chars r) -> ~ In c invalid_chars) /\
  (forall p a b q, r = p ++ String a (String b q) ->
                   is_space a && is_space b = false) /\
  (forall c, In c (chars r) -> is_space c = true -> c = " "%char) /\
  (exists t, r = take 100 t /\ t = strip t /\
             is_space_opt (first_char t) = false /\
             is_space_opt (last_char t) = false) /\
  (String.length r <= 100)%nat.
Proof.
  intros r. split; [exact (sanitize_filename_refines s)|].
  unfold r, sanitize_filename.
  set (u := remove_chars is_invalid s).
  set (v := collapse_ws false u).
  assert (Hin : forall c, In c (chars (take 100 (strip v))) -> In c (chars v)).
  { intros c H. apply take_chars, rstrip_chars, lstrip_chars in H. exact H. }
  assert (Hfl : is_space_opt (first_char (strip v)) = false
                /\ is_space_opt (last_char (strip v)) = false).
  { split; [apply rstrip_first, lstrip_first | apply rstrip_last]. }
  repeat split.
  - intros c Hc Hbad. apply Hin, collapse_ws_chars in Hc.
    destruct Hc as [->|[Hc _]].
    + simpl in Hbad. repeat (destruct Hbad as [Hbad|Hbad]; [discriminate|]). exact Hbad.
    + apply remove_chars_spec in Hc as [Hc _].
      unfold is_invalid in Hc.
      assert (existsb (Ascii.eqb c) invalid_chars = true); [|congruence].
      apply existsb_exists. exists c. split; trivial. apply Ascii.eqb_refl.
  - apply adjacent_ws_false.
    apply take_adjacent_ws, rstrip_adjacent_ws, lstrip_adjacent_ws, collapse_ws_adjacent.
  - intros c Hc Hs. apply Hin, collapse_ws_chars in Hc.
    destruct Hc as [->|[_ Hc]]; [reflexivity | congruence].
  - exists (strip v). repeat split; try apply Hfl.
    symmetry; apply strip_idempotent.
  - apply take_length.
Qed.

Example sanitize_filename_examples :
  sanitize_filename "  a <b>:  c?  d*/ |  " = "a b c d" /\
  sanitize_filename "What? A  title: part 1/2" = "What A title part 12" /\
  String.length (sanitize_filename (String.concat " " (repeat "abcd" 40))) = 100%nat.
Proof. vm_compute. repeat split. Qed.

End SanitizerFacts.

(** ** Decimal printing *)

Section DecimalFacts.
Import PyStr.

Lemma append_chars a b : chars (a ++ b) = (chars a ++ chars b)%list.
Proof. induction a as [|c a IH]; simpl; [reflexivity|]. now rewrite IH. Qed.

Lemma count_char_app c a b :
  count_char c (a ++ b) = (count_char c a + count_char c b)%nat.
Proof. induction a as [|d a IH]; simpl; [reflexivity|]. rewrite IH; lia. Qed.

Lemma append_length a b :
  String.length (a ++ b) = (String.length a + String.length b)%nat.
Proof. induction a as [|d a IH]; simpl; [reflexivity|]. now rewrite IH. Qed.

Lemma uint_digits d c :
  In c (chars (NilEmpty.string_of_uint d)) -> is_digit c = true.
Proof.
  induction d; simpl; try tauto; (intros [<-|H]; [reflexivity | auto]).
Qed.

Lemma str_of_int_digits z c :
  0 <= z -> In c (chars (str_of_int z)) -> is_digit c = true.
Proof.
  intros Hz. unfold str_of_int. destruct z as [|p|p]; try lia.
  - simpl. intros [<-|H]; [reflexivity | destruct H].
  - simpl Z.to_int. unfold NilZero.string_of_int, NilZero.string_of_uint.
    destruct (Pos.to_uint p) eqn:E; try apply uint_digits.
    simpl. intros [<-|H]; [reflexivity | destruct H].
Qed.

Lemma pad2_digits z c : 0 <= z -> In c (chars (pad2 z)) -> is_digit c = true.
Proof.
  intros Hz. unfold pad2.
  destruct (String.length (str_of_int z) <? 2)%nat.
  - simpl. intros [<-|H]; [reflexivity | eapply str_of_int_digits; eauto].
  - apply str_of_int_digits; trivial.
Qed.

Lemma count_char_absent c s :
  (forall d, In d (chars s) -> d <> c) -> count_char c s = 0%nat.
Proof.
  induction s as [|d r IH]; simpl; trivial.
  intros H. rewrite IH by (intros; apply H; now right).
  destruct (Ascii.eqb_spec c d) as [->|]; trivial.
  exfalso. now apply (H d); [left|].
Qed.

Lemma pad2_no_colon z : 0 <= z -> count_char ":" (pad2 z) = 0%nat.
Proof.
  intros Hz. apply count_char_absent. intros d Hd ->.
  now apply pad2_digits in Hd.
Qed.

(** A check over the residues below 60, by evaluation. *)
Lemma pad2_length_below_60 z : 0 <= z < 60 -> String.length (pad2 z) = 2%nat.
Proof.
  intros Hz.
  assert (H : forallb (fun n => String.length (pad2 (Z.of_nat n)) =? 2)%nat (seq 0 60) = true)
    by (vm_compute; reflexivity).
  rewrite forallb_forall in H.
  specialize (H (Z.to_nat z)). rewrite Z2Nat.id in H by lia.
  apply Nat.eqb_eq, H, in_seq. lia.
Qed.

End DecimalFacts.

(** ** Formatter *)

Section FormatterFacts.
Import PyStr Formatter.

(** C7: a null or zero duration prints as Unknown; below one hour the
    result is MM:SS with exactly one colon; from one hour on it is
    HH:MM:SS with exactly two colons, minutes and seconds within 0..59. *)
Theorem format_duration_spec :
  format_duration None = "Unknown" /\
  format_duration (Some 0) = "Unknown" /\
  (forall d, 0 < d < 3600 ->
     let m := d / 60 in
     let s := d mod 60 in
     format_duration (Some d) = pad2 m ++ ":" ++ pad2 s /\
     0 <= m <= 59 /\ 0 <= s <= 59 /\
     String.length (format_duration (Some d)) = 5%nat /\
     count_char ":" (format_duration (Some d)) = 1%nat) /\
  (forall d, 3600 <= d ->
     let h := d / 3600 in
     let m := (d / 60) mod 60 in
     let s := d mod 60 in
     format_duration (Some d) = pad2 h ++ ":" ++ pad2 m ++ ":" ++ pad2 s /\
     1 <= h /\ 0 <= m <= 59 /\ 0 <= s <= 59 /\
     d = 3600 * h + 60 * m + s /\
     count_char ":" (format_duration (Some d)) = 2%nat).
Proof.
  split; [reflexivity|]. split; [reflexivity|]. split.
  - intros d Hd m s.
    assert (Hm : 0 <= m <= 59).
    { unfold m. split; [apply Z.div_pos; lia|].
      assert (d / 60 < 60) by (apply Z.div_lt_upper_bound; lia). lia. }
    assert (Hs : 0 <= s <= 59) by (unfold s; pose proof (Z.mod_pos_bound d 60); lia).
    assert (E : format_duration (Some d) = pad2 m ++ ":" ++ pad2 s).
    { unfold format_duration.
      destruct (Z.eqb_spec d 0); [lia|].
      fold m. fold s.
      rewrite (Z.div_small m 60), (Z.mod_small m 60) by lia.
      reflexivity. }
    rewrite E. repeat split; try lia.
    + rewrite !append_length, !pad2_length_below_60 by lia. reflexivity.
    + rewrite !count_char_app, !pad2_no_colon by lia. reflexivity.
  - intros d Hd h m s.
    assert (Hh : d / 60 / 60 = h) by (unfold h; rewrite Z.div_div by lia; reflexivity).
    assert (Hh1 : 1 <= h) by (unfold h; apply Z.div_le_lower_bound; lia).
    assert (Hm : 0 <= m <= 59) by (unfold m; pose proof (Z.mod_pos_bound (d / 60) 60); lia).
    assert (Hs : 0 <= s <= 59) by (unfold s; pose proof (Z.mod_pos_bound d 60); lia).
    assert (E : format_duration (Some d) = pad2 h ++ ":" ++ pad2 m ++ ":" ++ pad2 s).
    { unfold format_duration.
      destruct (Z.eqb_spec d 0); [lia|].
      rewrite Hh. fold m. fold s.
      destruct (Z.eqb_spec h 0); [lia|]. reflexivity. }
    rewrite E. repeat split; try lia.
    + pose proof (Z.div_mod d 60 ltac:(lia)).
      pose proof (Z.div_mod (d / 60) 60 ltac:(lia)).
      unfold m, s. rewrite <- Hh. lia.
    + rewrite !count_char_app, !pad2_no_colon by lia. reflexivity.
Qed.

(** The duration claim at 59 minutes 59 seconds and at one hour. *)
Lemma format_duration_spec_witness :
  format_duration (Some 3599) = "59:59" /\ format_duration (Some 3600) = "01:00:00".
Proof.
  destruct format_duration_spec as (_ & _ & Hlt & Hge).
  split.
  - exact (proj1 (Hlt 3599 ltac:(lia))).
  - exact (proj1 (Hge 3600 ltac:(lia))).
Defined.

Lemma pow1024 i : 0 <= i -> 1024 ^ i = 2 ^ (10 * i).
Proof. intros Hi. rewrite Z.pow_mul_r by lia. reflexivity. Qed.

Lemma log1024_floor_spec b :
  0 < b ->
  let i := log1024_floor b in
  0 <= i /\ 1024 ^ i <= b < 1024 ^ (i + 1).
Proof.
  intros Hb i. unfold i, log1024_floor.
  destruct (Z.log2_spec b Hb) as [Hlo Hhi].
  pose proof (Z.log2_nonneg b) as Hl.
  set (L := Z.log2 b) in *.
  assert (Hi : 0 <= L / 10) by (apply Z.div_pos; lia).
  pose proof (Z.div_mod L 10 ltac:(lia)) as Hdm.
  pose proof (Z.mod_pos_bound L 10 ltac:(lia)) as Hmod.
  split; [exact Hi|].
  rewrite !pow1024 by lia. split.
  - apply Z.le_trans with (2 ^ L); [|exact Hlo].
    apply Z.pow_le_mono_r; lia.
  - apply Z.lt_le_trans with (2 ^ Z.succ L); [exact Hhi|].
    apply Z.pow_le_mono_r; lia.
Qed.

Lemma log1024_floor_below b j :
  0 < b -> 0 <= j -> b < 1024 ^ j -> log1024_floor b < j.
Proof.
  intros Hb Hj Hlt.
  destruct (log1024_floor_spec b Hb) as (Hi & Hlo & _).
  destruct (Z.lt_ge_cases (log1024_floor b) j) as [|Hge]; trivial.
  assert (1024 ^ j <= 1024 ^ log1024_floor b) by (apply Z.pow_le_mono_r; lia).
  lia.
Qed.

Lemma round2_nearest num den :
  0 < den ->
  2 * Z.abs (100 * num - round2 num den * den) <= den.
Proof.
  intros Hden. unfold round2.
  pose proof (Z.div_mod (100 * num) den ltac:(lia)) as Hdm.
  pose proof (Z.mod_pos_bound (100 * num) den Hden) as Hmod.
  set (q := 100 * num / den) in *. set (r := (100 * num) mod den) in *.
  destruct (Z.ltb_spec (2 * r) den); [nia|].
  destruct (Z.ltb_spec den (2 * r)); [nia|].
  destruct (Z.even q); nia.
Qed.

(** C1, as the code has it: below [1024^4] the unit is the one whose index
    [i] satisfies [1024^i <= b < 1024^(i+1)], the number is [b / 1024^i]
    rounded to the nearest hundredth and printed as a float, and zero
    prints as 0B. *)
Theorem format_file_size_spec (b : Z) :
  0 <= b < 1024 ^ 4 ->
  (b = 0 -> format_file_size b = Some "0B") /\
  (0 < b ->
   exists i name,
     0 <= i <= 3 /\ 1024 ^ i <= b < 1024 ^ (i + 1) /\
     nth_error size_names (Z.to_nat i) = Some name /\
     In name ["B"; "KB"; "MB"; "GB"] /\
     format_file_size b = Some (float_repr (round2 b (1024 ^ i)) ++ " " ++ name) /\
     2 * Z.abs (100 * b - round2 b (1024 ^ i) * 1024 ^ i) <= 1024 ^ i).
Proof.
  intros Hb. split; [intros ->; reflexivity|]. intros Hpos.
  destruct (log1024_floor_spec b Hpos) as (Hi & Hlo & Hhi).
  pose proof (log1024_floor_below b 4 Hpos ltac:(lia) ltac:(lia)) as Hi4.
  set (i := log1024_floor b) in *.
  assert (Hname : exists name, nth_error size_names (Z.to_nat i) = Some name
                               /\ In name ["B"; "KB"; "MB"; "GB"]).
  { assert (Hc : i = 0 \/ i = 1 \/ i = 2 \/ i = 3) by lia.
    destruct Hc as [-> | [-> | [-> | ->]]]; simpl; eexists; split; try reflexivity;
      simpl; auto. }
  destruct Hname as (name & Hn & Hin).
  exists i, name. repeat split; try lia; trivial.
  - unfold format_file_size.
    destruct (Z.eqb_spec b 0); [lia|]. destruct (Z.ltb_spec b 0); [lia|].
    fold i. rewrite Hn. reflexivity.
  - apply round2_nearest. lia.
Qed.

(** The size claim at 1536 bytes, which print as 1.5 KB. *)
Lemma format_file_size_spec_witness :
  0 <= 1536 < 1024 ^ 4 /\ 0 < 1536 /\
  format_file_size 1536 = Some "1.5 KB" /\
  exists i name,
    1024 ^ i <= 1536 < 1024 ^ (i + 1) /\
    format_file_size 1536 = Some (float_repr (round2 1536 (1024 ^ i)) ++ " " ++ name).
Proof.
  split; [lia|]. split; [lia|]. split; [reflexivity|].
  destruct (proj2 (format_file_size_spec 1536 ltac:(lia)) ltac:(lia))
    as (i & name & _ & Hi & _ & _ & E & _).
  exists i, name. split; assumption.
Defined.

(** C1 as stated fails at one tebibyte: no unit is left and the function
    raises instead of returning a string. *)
Lemma format_file_size_tebibyte :
  0 <= 1024 ^ 4 /\ format_file_size (1024 ^ 4) = None /\
  log1024_floor (1024 ^ 4) = 4 /\ nth_error size_names 4 = None.
Proof. vm_compute. repeat split; congruence. Qed.

Example format_file_size_examples :
  map format_file_size [1; 1023; 1024; 1152; 1500; 1048575; 123456789; 1024 ^ 4 - 1]
  = [Some "1.0 B"; Some "1023.0 B"; Some "1.0 KB"; Some "1.12 KB"; Some "1.46 KB";
     Some "1024.0 KB"; Some "117.74 MB"; Some "1024.0 GB"].
Proof. vm_compute. reflexivity. Qed.

Example format_duration_examples :
  map format_duration [None; Some 0; Some 5; Some 3599; Some 3600; Some 360000]
  = ["Unknown"; "Unknown"; "00:05"; "59:59"; "01:00:00"; "100:00:00"].
Proof. vm_compute. reflexivity. Qed.

End FormatterFacts.

(** ** Quality labels and their sort key *)

Section LabelFacts.
Import PyStr Metadata.

Lemma remove_chars_app cls a b :
  remove_chars cls (a ++ b) = remove_chars cls a ++ remove_chars cls b.
Proof.
  induction a as [|c a IH]; simpl; [reflexivity|].
  rewrite IH. now destruct (cls c).
Qed.

Lemma append_empty_r s : s ++ EmptyString = s.
Proof. induction s as [|c s IH]; simpl; [reflexivity|]. now rewrite IH. Qed.

Lemma str_of_int_no_p z c : In c (chars (str_of_int z)) -> Ascii.eqb "p" c = false.
Proof.
  destruct z as [|p|p].
  - simpl. intros [<-|H]; [reflexivity | destruct H].
  - intros H. apply str_of_int_digits in H; [|lia].
    destruct (Ascii.eqb_spec "p" c) as [<-|]; [discriminate | reflexivity].
  - unfold str_of_int. simpl Z.to_int. unfold NilZero.string_of_int.
    rewrite chars_cons. intros [<-|H]; [reflexivity|].
    assert (Hd : is_digit c = true).
    { unfold NilZero.string_of_uint in H.
      destruct (Pos.to_uint p); try (eapply uint_digits; eassumption).
      simpl in H. destruct H as [<-|H]; [reflexivity | destruct H]. }
    destruct (Ascii.eqb_spec "p" c) as [<-|]; [discriminate | reflexivity].
Qed.

Lemma to_int_not_nil z : Z.to_int z <> Pos Nil /\ Z.to_int z <> Neg Nil.
Proof.
  destruct z as [|p|p]; simpl; split; try discriminate;
    intros [= H]; now apply (Unsigned.to_uint_nonnil p).
Qed.

Lemma int_of_str_of_int z : int_of_str (str_of_int z) = Some z.
Proof.
  unfold int_of_str, str_of_int.
  destruct (to_int_not_nil z) as [H1 H2].
  rewrite NilZero.isi by assumption. simpl. now rewrite DecimalZ.of_to.
Qed.

(** The sort key reads back the height a label was built from. *)
Lemma quality_key_label h : quality_key (label h) = Some h.
Proof.
  unfold quality_key, label, remove_char.
  rewrite remove_chars_app, remove_chars_id by apply str_of_int_no_p.
  simpl. rewrite append_empty_r. apply int_of_str_of_int.
Qed.

Lemma label_inj h h' : label h = label h' -> h = h'.
Proof.
  intros E. apply (f_equal quality_key) in E.
  rewrite !quality_key_label in E. congruence.
Qed.

End LabelFacts.

(** ** Sorting by height *)

Section SortFacts.
Import PyStr Metadata.

Lemma insert_desc_perm x l : Permutation (x :: l) (insert_desc x l).
Proof.
  induction l as [|y r IH]; simpl; [reflexivity|].
  destruct (fst y <=? fst x); [reflexivity|].
  rewrite perm_swap. now apply perm_skip.
Qed.

Lemma sort_desc_perm l : Permutation l (sort_desc l).
Proof.
  induction l as [|x r IH]; simpl; [reflexivity|].
  rewrite <- insert_desc_perm. now apply perm_skip.
Qed.

Lemma insert_desc_sorted x l :
  StronglySorted key_ge l -> StronglySorted key_ge (insert_desc x l).
Proof.
  induction 1 as [|y r Hs IH Hall]; simpl.
  - repeat constructor.
  - destruct (Z.leb_spec (fst y) (fst x)) as [Hle|Hgt].
    + constructor; [now constructor|].
      constructor; [exact Hle|].
      eapply Forall_impl; [|exact Hall]. unfold key_ge; intros; lia.
    + constructor; [exact IH|].
      eapply Permutation_Forall; [apply insert_desc_perm|].
      constructor; [unfold key_ge; lia | exact Hall].
Qed.

Lemma sort_desc_sorted l : StronglySorted key_ge (sort_desc l).
Proof.
  induction l as [|x r IH]; simpl; [constructor | now apply insert_desc_sorted].
Qed.

Lemma decorate_labels hs :
  decorate (map label hs) = Some (map (fun h => (h, label h)) hs).
Proof.
  induction hs as [|h r IH]; simpl; [reflexivity|].
  now rewrite quality_key_label, IH.
Qed.

Lemma sorted_ge_nodup_gt hs :
  StronglySorted Z.ge hs -> NoDup hs -> StronglySorted Z.gt hs.
Proof.
  induction 1 as [|h r Hs IH Hall]; intros Hnd; [constructor|].
  inversion Hnd as [|? ? Hnotin Hnd']; subst.
  constructor; [auto|].
  rewrite Forall_forall in *. intros k Hk.
  specialize (Hall k Hk). assert (k <> h) by (intros ->; contradiction). lia.
Qed.

(** Sorting a duplicate-free list of labels: the heights come out strictly
    descending and nothing is lost or added. *)
Lemma sorted_by_height_desc_labels hs :
  NoDup hs ->
  exists hs',
    sorted_by_height_desc (map label hs) = Some (map label hs') /\
    StronglySorted Z.gt hs' /\ Permutation hs hs'.
Proof.
  intros Hnd. unfold sorted_by_height_desc. rewrite decorate_labels. simpl.
  set (d := map (fun h => (h, label h)) hs).
  pose proof (sort_desc_perm d) as Hp.
  pose proof (sort_desc_sorted d) as Hs.
  assert (Hshape : forall e, In e (sort_desc d) -> snd e = label (fst e)).
  { intros e He. apply (Permutation_in _ (Permutation_sym Hp)) in He.
    unfold d in He. apply in_map_iff in He as (h & <- & _). reflexivity. }
  exists (map fst (sort_desc d)).
  assert (Hperm : Permutation hs (map fst (sort_desc d))).
  { rewrite <- Hp. unfold d. rewrite map_map. simpl. now rewrite map_id. }
  repeat split.
  - f_equal. rewrite map_map. apply map_ext_in. exact Hshape.
  - apply sorted_ge_nodup_gt.
    + clear -Hs. induction Hs as [|y r Hs IH Hall]; simpl; constructor; trivial.
      rewrite Forall_forall in *. intros k Hk.
      apply in_map_iff in Hk as (e & <- & He). specialize (Hall e He).
      unfold key_ge in Hall. lia.
    + eapply Permutation_NoDup; eassumption.
  - exact Hperm.
Qed.

(** Two strictly descending lists with the same members are the same list:
    the sorted result does not depend on the order a set is listed in. *)
Lemma strictly_descending_unique l1 l2 :
  StronglySorted Z.gt l1 -> StronglySorted Z.gt l2 ->
  (forall h, In h l1 <-> In h l2) -> l1 = l2.
Proof.
  intros H1; revert l2; induction H1 as [|a r1 Hs1 IH Hall1]; intros l2 H2 Hiff.
  - destruct l2 as [|b r2]; trivial. exfalso. apply (Hiff b). now left.
  - destruct H2 as [|b r2 Hs2 Hall2].
    + exfalso. apply (Hiff a). now left.
    + rewrite Forall_forall in Hall1, Hall2.
      assert (a = b) as ->.
      { destruct (proj1 (Hiff a) (or_introl eq_refl)) as [->|Ha]; trivial.
        destruct (proj2 (Hiff b) (or_introl eq_refl)) as [->|Hb]; trivial.
        specialize (Hall1 _ Hb). specialize (Hall2 _ Ha). lia. }
      f_equal. apply IH; trivial. intros h; split; intros Hh.
      * destruct (proj1 (Hiff h) (or_intror Hh)) as [<-|]; trivial.
        specialize (Hall1 _ Hh). lia.
      * destruct (proj2 (Hiff h) (or_intror Hh)) as [<-|]; trivial.
        specialize (Hall2 _ Hh). lia.
Qed.

Lemma sorted_by_height_desc_order_free hs1 hs2 :
  NoDup hs1 -> Permutation hs1 hs2 ->
  sorted_by_height_desc (map label hs1) = sorted_by_height_desc (map label hs2).
Proof.
  intros Hnd Hp.
  destruct (sorted_by_height_desc_labels hs1 Hnd) as (s1 & -> & Hs1 & Hp1).
  destruct (sorted_by_height_desc_labels hs2 (Permutation_NoDup Hp Hnd))
    as (s2 & -> & Hs2 & Hp2).
  f_equal. f_equal. apply strictly_descending_unique; trivial.
  intros h. split; intros Hh.
  - eapply Permutation_in; [exact Hp2|]. eapply Permutation_in; [exact Hp|].
    eapply Permutation_in; [exact (Permutation_sym Hp1)|]. exact Hh.
  - eapply Permutation_in; [exact Hp1|].
    eapply Permutation_in; [exact (Permutation_sym Hp)|].
    eapply Permutation_in; [exact (Permutation_sym Hp2)|]. exact Hh.
Qed.

End SortFacts.

(** ** Quality derivation *)

Section MetadataFacts.
Import PyStr Metadata.

Lemma mem_spec x s : mem x s = true <-> In x s.
Proof.
  unfold mem. rewrite existsb_exists. split.
  - intros (y & Hy & E). apply String.eqb_eq in E. now subst.
  - intros H. exists x. split; trivial. apply String.eqb_refl.
Qed.

Lemma label_nodup hs : NoDup hs -> NoDup (map label hs).
Proof.
  induction 1 as [|h r Hnotin Hnd IH]; simpl; constructor; trivial.
  intros H. apply in_map_iff in H as (k & Hk & Hin).
  apply label_inj in Hk. now subst.
Qed.

Lemma set_add_labels h hs :
  NoDup hs ->
  exists hs', set_add (label h) (map label hs) = map label hs' /\ NoDup hs' /\
              (forall k, In k hs' <-> In k hs \/ k = h).
Proof.
  intros Hnd. unfold set_add.
  destruct (mem (label h) (map label hs)) eqn:E.
  - exists hs. repeat split; trivial; [tauto|].
    intros [?| ->]; trivial.
    apply mem_spec, in_map_iff in E as (k & Hk & Hin).
    apply label_inj in Hk. now subst.
  - exists (hs ++ [h])%list. rewrite map_app. repeat split.
    + apply NoDup_app; trivial.
      * repeat constructor. intros [ ].
      * intros k Hk [E'|[ ]]. subst k.
        assert (mem (label h) (map label hs) = true); [|congruence].
        apply mem_spec, in_map, Hk.
    + rewrite in_app_iff; simpl; intuition.
    + rewrite in_app_iff; simpl; intuition.
Qed.

Lemma positive_height_spec f h :
  positive_height f = Some h <-> height f = Some h /\ 0 < h.
Proof.
  unfold positive_height. destruct (height f) as [k|]; [|split; [discriminate|intros [? _]; discriminate]].
  destruct (Z.eqb_spec k 0), (Z.ltb_spec 0 k); simpl; split;
    try discriminate; try (intros [[= ->] ?]; lia).
  - intros [= ->]. split; [reflexivity | lia].
  - intros [[= ->] _]. reflexivity.
Qed.

Lemma collect_heights_from fs hs :
  NoDup hs ->
  exists hs',
    fold_left
      (fun video_qualities f =>
         if has_video f then
           match positive_height f with
           | Some h => set_add (label h) video_qualities
           | None => video_qualities
           end
         else video_qualities)
      fs (map label hs) = map label hs' /\
    NoDup hs' /\
    (forall h, In h hs' <-> In h hs \/ exists f, In f fs /\ contributes f h).
Proof.
  revert hs; induction fs as [|f r IH]; intros hs Hnd; simpl.
  - exists hs. repeat split; trivial; [tauto|]. intros [?|(f & [ ] & _)]; trivial.
  - assert (Hskip : (forall h, ~ contributes f h) ->
                    forall hs' : list Z,
                      (forall h, In h hs' <-> In h hs \/ exists g, In g r /\ contributes g h) ->
                      forall h, In h hs' <-> In h hs \/ exists g, (f = g \/ In g r) /\ contributes g h).
    { intros Hno hs' Hin' h. rewrite Hin'. split.
      - intros [H|(g & Hg & Hc)]; [now left | right; exists g; auto].
      - intros [H|(g & [E|Hg] & Hc)]; [now left | subst g; now apply Hno in Hc |].
        right. now exists g. }
    destruct (has_video f) eqn:Ev; [destruct (positive_height f) as [h|] eqn:Eh|].
    + destruct (set_add_labels h hs Hnd) as (hs1 & -> & Hnd1 & Hin1).
      destruct (IH hs1 Hnd1) as (hs' & -> & Hnd' & Hin').
      exists hs'. repeat split; trivial.
      * intros H. apply Hin' in H as [H|(g & Hg & Hc)].
        -- apply Hin1 in H as [H|E]; [now left|]. subst h0.
           right. exists f. split; [now left|].
           apply positive_height_spec in Eh. unfold contributes; tauto.
        -- right. exists g. split; [now right | trivial].
      * intros [H|(g & [E|Hg] & Hc)]; apply Hin'.
        -- left. apply Hin1. now left.
        -- subst g. left. apply Hin1. right.
           destruct Hc as (_ & Hh & Hpos).
           assert (positive_height f = Some h0) by (apply positive_height_spec; tauto).
           congruence.
        -- right. now exists g.
    + destruct (IH hs Hnd) as (hs' & -> & Hnd' & Hin').
      exists hs'. split; [reflexivity|]. split; [exact Hnd'|].
      apply Hskip; [|exact Hin']. intros h (_ & Hh & Hpos).
      assert (positive_height f = Some h) by (apply positive_height_spec; tauto).
      congruence.
    + destruct (IH hs Hnd) as (hs' & -> & Hnd' & Hin').
      exists hs'. split; [reflexivity|]. split; [exact Hnd'|].
      apply Hskip; [|exact Hin']. intros h (Hv & _). congruence.
Qed.

Lemma collect_heights_spec fs :
  exists hs, collect_heights fs = map label hs /\ NoDup hs /\
             (forall h, In h hs <-> exists f, In f fs /\ contributes f h).
Proof.
  destruct (collect_heights_from fs [] (NoDup_nil _)) as (hs & E & Hnd & Hin).
  exists hs. repeat split; trivial.
  - intros H. apply Hin in H as [[ ] |H]. exact H.
  - intros H. apply Hin. now right.
Qed.

(** C2: the primary derivation returns the labels of exactly the heights
    that some descriptor with a video codec advertises as positive, each
    once, strictly descending by height; heights 144, 720, 720, 1080 mixed
    with audio-only entries give 1080p, 720p, 144p. *)
Theorem primary_qualities_spec :
  (forall formats : list format_descriptor,
     exists hs,
       primary_qualities formats = Some (map label hs) /\
       StronglySorted Z.gt hs /\
       NoDup (map label hs) /\
       (forall h, In h hs <->
                  exists f, In f formats /\ has_video f = true /\
                            height f = Some h /\ 0 < h)) /\
  (forall f, has_video f = true <->
             exists v, vcodec f = Some v /\ v <> EmptyString /\ v <> "none") /\
  primary_qualities
    [audio_only; video 144; video 720; audio_only; video 720; video 1080;
     mkFormat None (Some 2160) None; mkFormat (Some "none") (Some 480) None]
  = Some ["1080p"; "720p"; "144p"].
Proof.
  split; [|split; [|vm_compute; reflexivity]].
  - intros formats.
    destruct (collect_heights_spec formats) as (hs0 & E & Hnd & Hin).
    destruct (sorted_by_height_desc_labels hs0 Hnd) as (hs & Es & Hs & Hp).
    exists hs. unfold primary_qualities. rewrite E. repeat split; trivial.
    + apply label_nodup. eapply Permutation_NoDup; eassumption.
    + intros H. apply (Permutation_in _ (Permutation_sym Hp)), Hin in H. exact H.
    + intros H. apply (Permutation_in _ Hp), Hin. exact H.
  - intros f. unfold has_video. destruct (vcodec f) as [v|].
    + destruct (String.eqb_spec v EmptyString), (String.eqb_spec v "none"); simpl;
        split; try discriminate;
        try (intros (w & [= <-] & ? & ?); congruence).
      intros _. now exists v.
    + split; [discriminate | intros (w & ? & _); discriminate].
Qed.

Lemma note_label_table n :
  note_label n = option_map snd (find (fun kv => contains (fst kv) n) keyword_table).
Proof.
  unfold note_label, keyword_table. simpl.
  repeat match goal with |- context [contains ?k n] => destruct (contains k n) end;
    reflexivity.
Qed.

Lemma note_label_height n x :
  note_label n = Some x -> exists h, x = label h /\ In x (map snd keyword_table).
Proof.
  rewrite note_label_table. unfold keyword_table. simpl.
  repeat match goal with |- context [contains ?k n] => destruct (contains k n) end;
    simpl; intros [= <-];
    [exists 144|exists 240|exists 360|exists 480|exists 720|exists 1080];
    (split; [reflexivity | tauto]).
Qed.

Lemma lowered_note_none f : lowered_note f = None <-> format_note f = Some None.
Proof.
  unfold lowered_note. destruct (format_note f) as [[n|]|]; split; congruence.
Qed.

(** The second loop on a list without a note of value None. *)
Lemma collect_notes_from fs acc :
  (forall f, In f fs -> format_note f <> Some None) ->
  exists notes,
    collect_notes_loop fs acc = Some notes /\
    forall x, In x notes <->
              In x acc \/
              exists f n, In f fs /\ lowered_note f = Some n /\ note_label n = Some x.
Proof.
  revert acc; induction fs as [|f r IH]; intros acc Hno; simpl.
  - exists acc. split; trivial. intros x. split; [tauto|].
    intros [?|(f & n & [ ] & _)]; trivial.
  - destruct (lowered_note f) as [n|] eqn:En.
    2:{ apply lowered_note_none in En. exfalso. apply (Hno f); [now left | exact En]. }
    destruct (IH (match note_label n with
                  | Some q => (acc ++ [q])%list
                  | None => acc
                  end)) as (notes & E & Hin).
    { intros g Hg. apply Hno. now right. }
    exists notes. split; trivial. intros x. rewrite Hin.
    destruct (note_label n) as [q|] eqn:Eq.
    + rewrite in_app_iff. simpl. split.
      * intros [[H|[Ex|[ ]]]|(g & k & Hg & Hk & Hx)]; [now left | right | right].
        -- subst q. exists f, n. auto.
        -- exists g, k. auto.
      * intros [H|(g & k & [Eg|Hg] & Hk & Hx)]; [auto | | right; now exists g, k].
        subst g. left. right. left. congruence.
    + split.
      * intros [H|(g & k & Hg & Hk & Hx)]; [now left | right; exists g, k; auto].
      * intros [H|(g & k & [Eg|Hg] & Hk & Hx)];
          [auto | subst g; congruence | right; now exists g, k].
Qed.

Lemma collect_notes_raises fs acc :
  collect_notes_loop fs acc = None <-> exists f, In f fs /\ format_note f = Some None.
Proof.
  revert acc; induction fs as [|f r IH]; intros acc; simpl.
  - split; [discriminate | intros (f & [ ] & _)].
  - destruct (lowered_note f) as [n|] eqn:En.
    + rewrite IH. split.
      * intros (g & Hg & E). exists g. auto.
      * intros (g & [Eg|Hg] & E); [|now exists g].
        subst g. apply lowered_note_none in E. congruence.
    + apply lowered_note_none in En. split; [|reflexivity].
      intros _. exists f. auto.
Qed.

Lemma set_of_list_from l acc :
  NoDup acc ->
  NoDup (fold_left (fun s x => set_add x s) l acc) /\
  (forall x, In x (fold_left (fun s x => set_add x s) l acc) <-> In x acc \/ In x l).
Proof.
  revert acc; induction l as [|y r IH]; intros acc Hnd; simpl.
  - split; trivial. tauto.
  - assert (Hadd : NoDup (set_add y acc) /\ forall x, In x (set_add y acc) <-> In x acc \/ x = y).
    { unfold set_add. destruct (mem y acc) eqn:E.
      - split; trivial. intros x. split; [tauto|]. intros [?| ->]; trivial.
        now apply mem_spec.
      - split.
        + apply NoDup_app; trivial; [repeat constructor; intros [ ] |].
          intros k Hk [E'|[ ]]. subst k.
          assert (mem y acc = true) by now apply mem_spec. congruence.
        + intros x. rewrite in_app_iff. simpl. intuition. }
    destruct Hadd as [Hnd1 Hin1].
    destruct (IH _ Hnd1) as [Hnd2 Hin2]. split; trivial.
    intros x. rewrite Hin2, Hin1. intuition.
Qed.

Lemma labels_of l :
  (forall x, In x l -> exists h, x = label h) -> exists hs, l = map label hs.
Proof.
  induction l as [|x r IH]; intros H.
  - now exists [].
  - destruct (H x (or_introl eq_refl)) as (h & ->).
    destruct IH as (hs & ->); [intros; apply H; now right|].
    now exists (h :: hs).
Qed.

(** X23: with the height-based tier empty and no note of value None, the
    result comes from the format notes through the keyword table (first
    keyword found, in table order), each label once, strictly descending by
    height; notes hd720 and tiny without heights give 720p, 144p. *)
Theorem fallback_qualities_spec :
  (forall formats : list format_descriptor,
     primary_qualities formats = Some [] ->
     (forall f, In f formats -> format_note f <> Some None) ->
     exists hs,
       video_qualities formats = Some (map label hs) /\
       StronglySorted Z.gt hs /\
       NoDup (map label hs) /\
       (forall h, In h hs <->
                  exists f n, In f formats /\ lowered_note f = Some n /\
                              note_label n = Some (label h))) /\
  (forall n, note_label n =
             option_map snd (find (fun kv => contains (fst kv) n) keyword_table)) /\
  keyword_table = [("tiny", label 144); ("small", label 240); ("medium", label 360);
                   ("large", label 480); ("hd720", label 720); ("hd1080", label 1080)] /\
  video_qualities [noted "hd720"; noted "tiny"] = Some ["720p"; "144p"].
Proof.
  split; [|split; [exact note_label_table | split; vm_compute; reflexivity]].
  intros formats Hp Hno. unfold video_qualities, derive. rewrite Hp.
  destruct (collect_notes_from formats [] Hno) as (notes & En & Hn).
  fold (collect_notes formats) in En. rewrite En.
  destruct (set_of_list_from notes [] (NoDup_nil _)) as [Hnd Hs].
  fold (set_of_list notes) in Hnd, Hs.
  assert (Hmem : forall x, In x (set_of_list notes) <->
                           exists f n, In f formats /\ lowered_note f = Some n /\
                                       note_label n = Some x).
  { intros x. rewrite Hs, Hn. simpl. tauto. }
  destruct (labels_of (set_of_list notes)) as (hs0 & E).
  { intros x Hx. apply Hmem in Hx as (f & n & _ & _ & Hx).
    apply note_label_height in Hx as (h & -> & _). now exists h. }
  rewrite E in *.
  assert (Hnd0 : NoDup hs0) by (eapply NoDup_map_inv; eassumption).
  destruct (sorted_by_height_desc_labels hs0 Hnd0) as (hs & Es & Hsort & Hperm).
  rewrite Es. exists hs. repeat split; trivial.
  - apply label_nodup. eapply Permutation_NoDup; eassumption.
  - intros H. apply (Permutation_in _ (Permutation_sym Hperm)) in H.
    apply Hmem. now apply in_map.
  - intros H. apply (Permutation_in _ Hperm).
    apply Hmem, in_map_iff in H as (k & Hk & Hin). apply label_inj in Hk. now subst.
Qed.

(** The fallback tier on the two-note list, whose primary tier is empty. *)
Lemma fallback_qualities_spec_witness :
  primary_qualities [noted "hd720"; noted "tiny"] = Some [] /\
  exists hs,
    video_qualities [noted "hd720"; noted "tiny"] = Some (map label hs) /\
    StronglySorted Z.gt hs.
Proof.
  split; [reflexivity|].
  assert (Hno : forall f, In f [noted "hd720"; noted "tiny"] ->
                          format_note f <> Some None).
  { intros f Hf. simpl in Hf. destruct Hf as [Hf|[Hf|[ ]]]; subst f; discriminate. }
  destruct (proj1 fallback_qualities_spec [noted "hd720"; noted "tiny"] eq_refl Hno)
    as (hs & E & Hs & _).
  exists hs. split; assumption.
Defined.

End MetadataFacts.

(** ** Download orchestrator *)

Section DownloadFacts.
Import PyStr Effects Download.

Lemma label_not_best h : String.eqb (Metadata.label h) "best" = false.
Proof.
  destruct (String.eqb_spec (Metadata.label h) "best") as [E|]; trivial.
  apply (f_equal Metadata.quality_key) in E.
  rewrite quality_key_label in E. discriminate.
Qed.

Lemma remove_trailing_p d :
  (forall c, In c (chars d) -> c <> "p"%char) -> remove_char "p" (d ++ "p") = d.
Proof.
  intros H. unfold remove_char. rewrite remove_chars_app, remove_chars_id.
  - simpl. apply append_empty_r.
  - intros c Hc. destruct (Ascii.eqb_spec "p" c) as [<-|]; trivial.
    now apply H in Hc.
Qed.

(** C4: the selector is the two-tier chain for best and, for a label of
    height h, the three-tier chain bounded by h; h is the label without its
    trailing p. *)
Theorem format_selector_spec :
  format_selector "best" = "best[ext=mp4]/best" /\
  (forall h : Z,
     format_selector (Metadata.label h) =
     "best[height<=" ++ str_of_int h ++ "][ext=mp4]/best[height<="
       ++ str_of_int h ++ "]/best") /\
  (forall d : string,
     (forall c, In c (chars d) -> c <> "p"%char) ->
     format_selector (d ++ "p") =
     "best[height<=" ++ d ++ "][ext=mp4]/best[height<=" ++ d ++ "]/best") /\
  format_selector "720p" = "best[height<=720][ext=mp4]/best[height<=720]/best".
Proof.
  split; [reflexivity|]. split; [|split; [|reflexivity]].
  - intros h. unfold format_selector. rewrite label_not_best.
    unfold Metadata.label. rewrite remove_trailing_p; trivial.
    intros c Hc ->. apply str_of_int_no_p in Hc. discriminate.
  - intros d Hd. unfold format_selector.
    assert (E : String.eqb (d ++ "p") "best" = false).
    { destruct (String.eqb_spec (d ++ "p") "best") as [E|]; trivial.
      exfalso.
      assert (Hin : In "t"%char (chars (d ++ "p"))) by (rewrite E; simpl; tauto).
      assert (Hp : remove_char "p" (d ++ "p") = d) by now apply remove_trailing_p.
      rewrite E in Hp. subst d. simpl in E. discriminate. }
    rewrite E, remove_trailing_p; trivial.
Qed.

(** The selector claim at the label 1080p. *)
Lemma format_selector_spec_witness :
  format_selector "1080p" = "best[height<=1080][ext=mp4]/best[height<=1080]/best".
Proof.
  destruct format_selector_spec as (_ & _ & H & _).
  apply (H "1080"). simpl. intros c Hc E. subst c.
  repeat (destruct Hc as [Hc|Hc]; [discriminate|]). exact Hc.
Defined.

Lemma append_assoc a b c : (a ++ b) ++ c = a ++ (b ++ c).
Proof. induction a as [|x a IH]; simpl; [reflexivity|]. now rewrite IH. Qed.

Lemma eqb_append_l a b c : String.eqb (a ++ b) (a ++ c) = String.eqb b c.
Proof.
  induction a as [|x a IH]; simpl; [reflexivity|].
  now rewrite Ascii.eqb_refl.
Qed.

Lemma path_join_eqb dir n n' :
  String.eqb (path_join dir n) (path_join dir n') = String.eqb n n'.
Proof. unfold path_join. now rewrite !eqb_append_l. Qed.

Lemma find_ext {A : Type} (f g : A -> bool) l :
  (forall x, In x l -> f x = g x) -> find f l = find g l.
Proof.
  induction l as [|x r IH]; simpl; intros H; [reflexivity|].
  rewrite (H x) by now left. destruct (g x); trivial.
  apply IH. intros; apply H; now right.
Qed.

(** Audio mode looks for the entry named audio.mp3. *)
Lemma read_path_audio temp_dir listing :
  read_path temp_dir listing (path_join temp_dir "audio" ++ ".mp3")
  = option_map snd (produced_file Audio listing).
Proof.
  assert (E : path_join temp_dir "audio" ++ ".mp3" = path_join temp_dir "audio.mp3").
  { unfold path_join. rewrite !append_assoc. reflexivity. }
  rewrite E. unfold read_path, produced_file. f_equal. apply find_ext. intros e _.
  apply path_join_eqb.
Qed.

(** Video mode reads the first listed entry whose name starts with video. *)
Lemma downloaded_files_first temp_dir listing :
  match produced_file Video listing with
  | Some (n, data) =>
      exists rest, downloaded_files listing = n :: rest /\
                   read_path temp_dir listing (path_join temp_dir n) = Some data
  | None => downloaded_files listing = []
  end.
Proof.
  unfold produced_file, downloaded_files, read_path.
  induction listing as [|[n0 d0] r IH]; simpl; [reflexivity|].
  destruct (startswith "video" n0) eqn:E0.
  - eexists. split; [reflexivity|]. now rewrite String.eqb_refl.
  - destruct (find (fun e => startswith "video" (fst e)) r) as [[n data]|] eqn:Ef;
      [|exact IH].
    destruct IH as (rest & -> & Hr). exists rest. split; [reflexivity|].
    rewrite path_join_eqb.
    destruct (String.eqb_spec n0 n) as [->|]; [|exact Hr].
    apply find_some in Ef as [_ Ef]. simpl in Ef. congruence.
Qed.

(** What a download call does, case by case on what the library did. *)
Lemma download_cases lib temp_dir url m quality :
  let opts := opts_of temp_dir m quality in
  let r := download lib temp_dir url m quality in
  match lib opts url true with
  | Raised e =>
      exists msg, msg <> EmptyString /\
        r = (Some (None, None), [LibraryCall opts url true; StError msg])
  | Returned info listing =>
      match produced_file m listing, info_title info with
      | Some (_, data), Some title =>
          r = (Some (Some data,
                     Some (Sanitizer.sanitize_filename title ++ expected_extension m)),
               [LibraryCall opts url true])
      | _, _ =>
          exists msg, msg <> EmptyString /\
            r = (Some (None, None), [LibraryCall opts url true; StError msg])
      end
  end.
Proof.
  destruct m; cbv zeta; unfold download, opts_of, expected_extension.
  - unfold download_audio_to_memory.
    destruct (lib _ url true) as [e|info listing].
    + eexists; split; [|reflexivity]. discriminate.
    + rewrite read_path_audio.
      destruct (produced_file Audio listing) as [[n data]|].
      * destruct (info_title info); [reflexivity|].
        eexists; split; [|reflexivity]. discriminate.
      * eexists; split; [|reflexivity]. discriminate.
  - unfold download_video_to_memory.
    destruct (lib _ url true) as [e|info listing].
    + eexists; split; [|reflexivity]. discriminate.
    + pose proof (downloaded_files_first temp_dir listing) as Hf.
      destruct (produced_file Video listing) as [[n data]|].
      * destruct Hf as (rest & -> & ->).
        destruct (info_title info); [reflexivity|].
        eexists; split; [|reflexivity]. discriminate.
      * rewrite Hf. eexists; split; [|reflexivity]. discriminate.
Qed.

(** C5: when the library raises, or returns without the expected file, the
    call yields the pair of nulls and shows one non-empty error message;
    and no call ever yields bytes without a filename or the reverse. *)
Theorem download_failure_spec (lib : library) (temp_dir url : string)
  (m : mode) (quality : string) :
  let opts := opts_of temp_dir m quality in
  let r := download lib temp_dir url m quality in
  ((exists e, lib opts url true = Raised e) \/
   (exists info listing,
      lib opts url true = Returned info listing /\ produced_file m listing = None) ->
   exists msg,
     msg <> EmptyString /\
     r = (Some (None, None), [LibraryCall opts url true; StError msg])) /\
  (value r = Some (None, None) \/
   exists data filename, value r = Some (Some data, Some filename)).
Proof.
  intros opts r. pose proof (download_cases lib temp_dir url m quality) as H.
  cbv zeta in H. fold opts in H. fold r in H. split.
  - intros [(e & E)|(info & listing & E & Hf)]; rewrite E in H; [exact H|].
    rewrite Hf in H. exact H.
  - destruct (lib opts url true) as [e|info listing].
    + destruct H as (msg & _ & ->). now left.
    + destruct (produced_file m listing) as [[n data]|];
        [destruct (info_title info) as [title|]|].
      * rewrite H. right. do 2 eexists. reflexivity.
      * destruct H as (msg & _ & ->). now left.
      * destruct H as (msg & _ & ->). now left.
Qed.

(** The failure claim on a library that raises, in audio mode. *)
Lemma download_failure_spec_witness :
  (exists e, Samples.lib_raises (opts_of "/tmp/t" Audio "best") "u" true = Raised e) /\
  exists msg,
    msg <> EmptyString /\
    download Samples.lib_raises "/tmp/t" "u" Audio "best" =
    (Some (None, None),
     [LibraryCall (opts_of "/tmp/t" Audio "best") "u" true; StError msg]).
Proof.
  assert (H : exists e, Samples.lib_raises (opts_of "/tmp/t" Audio "best") "u" true
                        = Raised e) by (eexists; reflexivity).
  split; [exact H|].
  exact (proj1 (download_failure_spec Samples.lib_raises "/tmp/t" "u" Audio "best")
               (or_introl H)).
Defined.

(** C8: when the library returns, the produced file is there and the title
    is known, the call returns that file's bytes with the sanitized title
    followed by the extension of the mode; and every returned pair of
    bytes and filename arises this way. *)
Theorem download_success_spec (lib : library) (temp_dir url : string)
  (m : mode) (quality : string) :
  let opts := opts_of temp_dir m quality in
  let r := download lib temp_dir url m quality in
  (forall info listing file data title,
     lib opts url true = Returned info listing ->
     produced_file m listing = Some (file, data) ->
     info_title info = Some title ->
     r = (Some (Some data,
                Some (Sanitizer.sanitize_filename title ++ expected_extension m)),
          [LibraryCall opts url true])) /\
  (forall data filename,
     value r = Some (Some data, Some filename) ->
     exists info listing file title,
       lib opts url true = Returned info listing /\
       produced_file m listing = Some (file, data) /\
       In (file, data) listing /\
       info_title info = Some title /\
       filename = Sanitizer.sanitize_filename title ++ expected_extension m) /\
  expected_extension Audio = ".mp3" /\ expected_extension Video = ".mp4".
Proof.
  intros opts r. pose proof (download_cases lib temp_dir url m quality) as H.
  cbv zeta in H. fold opts in H. fold r in H.
  split; [|split; [|split; reflexivity]].
  - intros info listing file data title E Hf Ht.
    rewrite E, Hf, Ht in H. exact H.
  - intros data filename Hv.
    destruct (lib opts url true) as [e|info listing].
    + destruct H as (msg & _ & E). rewrite E in Hv. discriminate.
    + destruct (produced_file m listing) as [[n d]|] eqn:Hf;
        [destruct (info_title info) as [title|] eqn:Ht|].
      * rewrite H in Hv. injection Hv as <- <-.
        exists info, listing, n, title. repeat split; trivial.
        destruct m; simpl in Hf; apply find_some in Hf; tauto.
      * destruct H as (msg & _ & E). rewrite E in Hv. discriminate.
      * destruct H as (msg & _ & E). rewrite E in Hv. discriminate.
Qed.

(** The success claim in audio mode on a directory holding audio.mp3. *)
Lemma download_success_spec_witness :
  download (Samples.lib_leaves [("audio.mp3", Samples.mp3_bytes)]) "/tmp/t" "u" Audio "best"
  = (Some (Some Samples.mp3_bytes, Some "My Video.mp3"),
     [LibraryCall (opts_of "/tmp/t" Audio "best") "u" true]).
Proof.
  exact (proj1 (download_success_spec
                  (Samples.lib_leaves [("audio.mp3", Samples.mp3_bytes)])
                  "/tmp/t" "u" Audio "best")
               Samples.sample_info [("audio.mp3", Samples.mp3_bytes)]
               "audio.mp3" Samples.mp3_bytes "My: Video?"
               eq_refl eq_refl eq_refl).
Defined.

Lemma find_first {A : Type} (p : A -> bool) before x after :
  p x = true -> (forall e, In e before -> p e = false) ->
  find p (before ++ x :: after) = Some x.
Proof.
  intros Hx. induction before as [|y r IH]; simpl; intros H.
  - now rewrite Hx.
  - rewrite (H y) by now left. apply IH. intros; apply H; now right.
Qed.

(** C10: video mode returns the bytes of the first listed file whose name
    starts with video, under a filename that always ends in .mp4; with two
    such files the bytes follow the listing order, and may be those of a
    file that is no mp4. *)
Theorem video_first_listed_spec :
  (forall (lib : library) (temp_dir url quality : string) info listing title,
     lib (video_opts (path_join temp_dir "video") quality) url true
     = Returned info listing ->
     info_title info = Some title ->
     forall before n data after,
       listing = (before ++ (n, data) :: after)%list ->
       startswith "video" n = true ->
       (forall e, In e before -> startswith "video" (fst e) = false) ->
       value (download_video_to_memory lib temp_dir url quality)
       = Some (Some data, Some (Sanitizer.sanitize_filename title ++ ".mp4"))) /\
  Permutation Samples.webm_first Samples.mp4_first /\
  value (download_video_to_memory (Samples.lib_leaves Samples.webm_first)
           "/tmp/t" "u" "best")
  = Some (Some Samples.webm_bytes, Some "My Video.mp4") /\
  value (download_video_to_memory (Samples.lib_leaves Samples.mp4_first)
           "/tmp/t" "u" "best")
  = Some (Some Samples.mp4_bytes, Some "My Video.mp4") /\
  Samples.webm_bytes <> Samples.mp4_bytes.
Proof.
  split; [|split; [apply perm_swap | split; [reflexivity | split; [reflexivity | discriminate]]]].
  intros lib temp_dir url quality info listing title E Ht before n data after -> Hn Hb.
  pose proof (download_cases lib temp_dir url Video quality) as H.
  cbv zeta in H. unfold opts_of in H. rewrite E, Ht in H.
  unfold produced_file in H.
  rewrite (find_first (fun e => startswith "video" (fst e)) before (n, data) after Hn Hb) in H.
  change (download_video_to_memory lib temp_dir url quality)
    with (download lib temp_dir url Video quality).
  rewrite H. reflexivity.
Qed.

(** The video claim on a directory that lists video.webm before video.mp4. *)
Lemma video_first_listed_spec_witness :
  value (download_video_to_memory (Samples.lib_leaves Samples.webm_first)
           "/tmp/t" "u" "720p")
  = Some (Some Samples.webm_bytes, Some "My Video.mp4").
Proof.
  exact (proj1 video_first_listed_spec
           (Samples.lib_leaves Samples.webm_first) "/tmp/t" "u" "720p"
           Samples.sample_info Samples.webm_first "My: Video?" eq_refl eq_refl
           [] "video.webm" Samples.webm_bytes [("video.mp4", Samples.mp4_bytes)]
           eq_refl eq_refl (fun e (H : In e []) => match H with end)).
Defined.

End DownloadFacts.

(** ** Main flow *)

Section AppFacts.
Import PyStr Effects App.

Lemma prefix_spec n h : String.prefix n h = true <-> exists after, h = n ++ after.
Proof.
  revert h; induction n as [|c n IH]; intros h.
  - split; [intros _; now exists h | intros _; destruct h; reflexivity].
  - destruct h as [|d h]; simpl;
      [split; [discriminate | intros (a & E); discriminate]|].
    destruct (ascii_dec c d) as [->|Hne].
    + rewrite IH. split; intros (a & E); exists a; congruence.
    + split; [discriminate | intros (a & E); congruence].
Qed.

(** [contains] decides the substring relation. *)
Lemma contains_spec n h : contains n h = true <-> is_substring n h.
Proof.
  unfold is_substring. induction h as [|d h IH].
  - cbn [contains]. rewrite orb_false_r, prefix_spec. split.
    + intros (a & E). exists EmptyString, a. exact E.
    + intros (b & a & E). destruct b; [now exists a | discriminate].
  - cbn [contains]. rewrite orb_true_iff, IH, prefix_spec. split.
    + intros [(a & E)|(b & a & E)].
      * exists EmptyString, a. exact E.
      * exists (String d b), a. simpl. now rewrite E.
    + intros (b & a & E). destruct b as [|c b].
      * left. now exists a.
      * right. exists b, a. simpl in E. congruence.
Qed.

Lemma valid_url_spec url :
  valid_url url = true <-> exists s, In s accepted_substrings /\ is_substring s url.
Proof.
  unfold valid_url, accepted_substrings.
  rewrite !orb_true_iff, !contains_spec. simpl. split.
  - intros [[H|H]|H]; eexists; split; try exact H; tauto.
  - intros (s & [<-|[<-|[<-|[ ]]]] & H); tauto.
Qed.

(** C9: a non-empty URL holding none of the three accepted substrings is
    answered by the error message alone; the run ends there and the
    extraction library is never called. *)
Theorem main_rejects_invalid_url (lib : library)
  (temp_dir_audio temp_dir_video : string) (ui : ui_inputs) :
  text_input ui <> EmptyString ->
  (forall s, In s accepted_substrings -> ~ is_substring s (text_input ui)) ->
  main lib temp_dir_audio temp_dir_video ui
  = (Some tt, [StError "Please enter a valid YouTube URL"]) /\
  (forall e, In e (trace (main lib temp_dir_audio temp_dir_video ui)) ->
             is_library_call e = false).
Proof.
  intros Hne Hno.
  assert (E : main lib temp_dir_audio temp_dir_video ui
              = (Some tt, [StError "Please enter a valid YouTube URL"])).
  { unfold main.
    destruct (String.eqb_spec (text_input ui) EmptyString) as [|_]; [contradiction|].
    destruct (valid_url (text_input ui)) eqn:Ev; [|reflexivity].
    apply valid_url_spec in Ev as (s & Hs & Hsub). now apply Hno in Hsub. }
  split; [exact E|]. rewrite E. simpl. intros e [<-|[ ]]. reflexivity.
Qed.

(** The rejection claim on a URL of another site. *)
Lemma main_rejects_invalid_url_witness :
  main Samples.lib_raises "/tmp/a" "/tmp/v" Samples.rejected_ui
  = (Some tt, [StError "Please enter a valid YouTube URL"]).
Proof.
  refine (proj1 (main_rejects_invalid_url Samples.lib_raises "/tmp/a" "/tmp/v"
                   Samples.rejected_ui _ _)).
  - discriminate.
  - intros s Hs Hsub. apply contains_spec in Hsub.
    simpl in Hs. destruct Hs as [<-|[<-|[<-|[ ]]]]; discriminate.
Defined.

(** An accepted URL does reach the library: the first thing the run does
    is the metadata call. *)
Lemma main_accepted_url_calls_library (lib : library)
  (temp_dir_audio temp_dir_video : string) (ui : ui_inputs) :
  text_input ui <> EmptyString ->
  valid_url (text_input ui) = true ->
  exists rest,
    trace (main lib temp_dir_audio temp_dir_video ui)
    = LibraryCall info_opts (text_input ui) false :: rest.
Proof.
  intros Hne Hv. unfold main.
  destruct (String.eqb_spec (text_input ui) EmptyString) as [|_]; [contradiction|].
  rewrite Hv. cbn [negb].
  unfold get_video_info.
  destruct (lib info_opts (text_input ui) false) as [e|info listing].
  - eexists. reflexivity.
  - destruct (Metadata.derive (get (info_formats info) [])) as [q|msg].
    + cbn [bind emit ret trace snd fst app].
      match goal with
      | |- context [bind ?m ?k] => destruct (bind m k) as [v t]
      end.
      eexists. reflexivity.
    + eexists. reflexivity.
Qed.

End AppFacts.

(** * Further properties of the program *)

(** ** Filename sanitizer: fixed points, empty results, what is kept *)

Section SanitizerMore.
Import PyStr Sanitizer.

Lemma take_all n s : (String.length s <= n)%nat -> take n s = s.
Proof.
  revert s; induction n as [|n IH]; intros [|c r]; simpl; trivial; try lia.
  intros H. f_equal. apply IH. lia.
Qed.

Lemma collapse_ws_clean b s :
  (forall c, In c (chars s) -> is_space c = true -> c = " "%char) ->
  adjacent_ws s = false ->
  (b = true -> is_space_opt (first_char s) = false) ->
  collapse_ws b s = s.
Proof.
  revert b; induction s as [|c r IH]; intros b Hsp Hadj Hb; simpl; trivial.
  assert (Hr : forall d, In d (chars r) -> is_space d = true -> d = " "%char)
    by (intros d Hd; apply Hsp; now right).
  pose proof (adjacent_ws_tail _ _ Hadj) as Hadj'.
  destruct (is_space c) eqn:Ec.
  - assert (Hnext : is_space_opt (first_char r) = false).
    { destruct r as [|d r']; trivial. simpl in Hadj.
      apply orb_false_iff in Hadj as [Hadj _]. rewrite Ec in Hadj. exact Hadj. }
    assert (Hc : c = " "%char) by (apply Hsp; [now left | exact Ec]).
    destruct b; [specialize (Hb eq_refl); simpl in Hb; congruence|].
    rewrite Hc. f_equal. apply IH; trivial.
  - f_equal. apply IH; trivial. discriminate.
Qed.

(** X1: a name that is already clean is returned unchanged. *)
Theorem sanitize_filename_clean_fixed (s : string) :
  (forall c, In c (chars s) -> is_invalid c = false) ->
  (forall c, In c (chars s) -> is_space c = true -> c = " "%char) ->
  adjacent_ws s = false ->
  is_space_opt (first_char s) = false ->
  is_space_opt (last_char s) = false ->
  (String.length s <= 100)%nat ->
  sanitize_filename s = s.
Proof.
  intros Hinv Hsp Hadj Hf Hl Hlen. unfold sanitize_filename.
  rewrite remove_chars_id by exact Hinv.
  rewrite (collapse_ws_clean false s Hsp Hadj) by discriminate.
  unfold strip. rewrite lstrip_id, rstrip_id by trivial.
  now apply take_all.
Qed.

Lemma sanitize_filename_clean_fixed_witness :
  sanitize_filename "Holiday video part 2" = "Holiday video part 2".
Proof.
  apply sanitize_filename_clean_fixed; try reflexivity; try (simpl; lia).
  - intros c Hc. simpl in Hc.
    repeat (destruct Hc as [Hc|Hc]; [subst c; reflexivity|]). destruct Hc.
  - intros c Hc. simpl in Hc.
    repeat (destruct Hc as [Hc|Hc]; [subst c; try reflexivity; discriminate|]).
    destruct Hc.
Defined.

Lemma lstrip_all_space s :
  (forall c, In c (chars s) -> is_space c = true) -> lstrip s = EmptyString.
Proof.
  induction s as [|c r IH]; simpl; trivial. intros H.
  rewrite (H c) by now left. apply IH. intros d Hd. apply H. now right.
Qed.

Lemma lstrip_keeps s c : In c (chars s) -> is_space c = false -> In c (chars (lstrip s)).
Proof.
  induction s as [|d r IH]; simpl; trivial.
  intros [->|H] Hc.
  - rewrite Hc. now left.
  - destruct (is_space d); [now apply IH | now right].
Qed.

Lemma rstrip_keeps s c : In c (chars s) -> is_space c = false -> In c (chars (rstrip s)).
Proof.
  induction s as [|d r IH]; simpl; trivial.
  intros [->|H] Hc.
  - destruct (rstrip r); [rewrite Hc|]; now left.
  - specialize (IH H Hc). destruct (rstrip r) as [|e r']; [destruct IH|].
    now right.
Qed.

Lemma collapse_ws_keeps b s c :
  In c (chars s) -> is_space c = false -> In c (chars (collapse_ws b s)).
Proof.
  revert b; induction s as [|d r IH]; intros b; simpl; trivial.
  intros [->|H] Hc.
  - rewrite Hc. now left.
  - destruct (is_space d); [destruct b|]; try (right; now apply IH); now apply IH.
Qed.

Lemma remove_chars_keeps cls s c :
  In c (chars s) -> cls c = false -> In c (chars (remove_chars cls s)).
Proof.
  induction s as [|d r IH]; simpl; trivial.
  intros [->|H] Hc.
  - rewrite Hc. now left.
  - destruct (cls d); [now apply IH | right; now apply IH].
Qed.

(** X2: the result is empty exactly when the name holds nothing but
    forbidden characters and whitespace. *)
Theorem sanitize_filename_empty_iff (s : string) :
  sanitize_filename s = EmptyString <->
  (forall c, In c (chars s) -> is_invalid c = true \/ is_space c = true).
Proof.
  unfold sanitize_filename. split.
  - intros E c Hc.
    destruct (is_invalid c) eqn:Ei; [now left|].
    destruct (is_space c) eqn:Es; [now right|]. exfalso.
    assert (H : In c (chars (strip (collapse_ws false (remove_chars is_invalid s))))).
    { apply rstrip_keeps; [|exact Es]. apply lstrip_keeps; [|exact Es].
      apply collapse_ws_keeps; [|exact Es]. now apply remove_chars_keeps. }
    destruct (strip (collapse_ws false (remove_chars is_invalid s))); [destruct H|].
    simpl in E. discriminate.
  - intros H. unfold strip. rewrite lstrip_all_space; [reflexivity|].
    intros c Hc. apply collapse_ws_chars in Hc as [->|[Hc Hs]]; [reflexivity|].
    apply remove_chars_spec in Hc as [Hi Hc].
    destruct (H c Hc); congruence.
Qed.

Lemma remove_ws_collapse b s :
  remove_chars is_space (collapse_ws b s) = remove_chars is_space s.
Proof.
  revert b; induction s as [|c r IH]; intros b; simpl; trivial.
  destruct (is_space c) eqn:E.
  - destruct b; simpl; apply IH.
  - simpl. rewrite E. f_equal. apply IH.
Qed.

Lemma remove_ws_lstrip s : remove_chars is_space (lstrip s) = remove_chars is_space s.
Proof.
  induction s as [|c r IH]; simpl; trivial.
  destruct (is_space c) eqn:E; [exact IH|]. simpl. now rewrite E.
Qed.

Lemma remove_ws_rstrip s : remove_chars is_space (rstrip s) = remove_chars is_space s.
Proof.
  induction s as [|c r IH]; simpl; trivial.
  destruct (rstrip r) as [|e r'] eqn:Er.
  - simpl in IH. rewrite <- IH. destruct (is_space c) eqn:E; simpl; now rewrite ?E.
  - change (remove_chars is_space (String c (String e r')))
      with (if is_space c then remove_chars is_space (String e r')
            else String c (remove_chars is_space (String e r'))).
    now rewrite IH.
Qed.

Lemma remove_ws_take n s :
  exists rest,
    remove_chars is_space s = remove_chars is_space (take n s) ++ rest.
Proof.
  revert s; induction n as [|n IH]; intros s.
  - exists (remove_chars is_space s). destruct s; reflexivity.
  - destruct s as [|c r]; [now exists EmptyString|].
    destruct (IH r) as (rest & E). exists rest. simpl.
    destruct (is_space c); [exact E|]. simpl. now rewrite E.
Qed.

Lemma remove_chars_length cls s :
  (String.length (remove_chars cls s) <= String.length s)%nat.
Proof. induction s as [|c r IH]; simpl; trivial. destruct (cls c); simpl; lia. Qed.

Lemma collapse_ws_length b s :
  (String.length (collapse_ws b s) <= String.length s)%nat.
Proof.
  revert b; induction s as [|c r IH]; intros b; simpl; trivial.
  pose proof (IH true). pose proof (IH false).
  destruct (is_space c); [destruct b|]; simpl; lia.
Qed.

Lemma lstrip_length s : (String.length (lstrip s) <= String.length s)%nat.
Proof. induction s as [|c r IH]; simpl; trivial. destruct (is_space c); simpl; lia. Qed.

Lemma rstrip_length s : (String.length (rstrip s) <= String.length s)%nat.
Proof.
  induction s as [|c r IH]; simpl; trivial.
  destruct (rstrip r); [destruct (is_space c)|]; simpl in *; lia.
Qed.

Lemma take_full n t : (n <= String.length t)%nat -> String.length (take n t) = n.
Proof.
  revert t; induction n as [|n IH]; intros [|c r]; simpl; trivial; try lia.
  intros H. f_equal. apply IH. lia.
Qed.

(** X3: apart from whitespace, the result is a prefix of the name with its
    forbidden characters taken out, so nothing is invented or reordered;
    and something is left off only when the result is a full 100
    characters long, never for a name of at most 100 characters. *)
Theorem sanitize_filename_keeps_prefix (s : string) :
  exists rest,
    remove_chars is_space (remove_chars is_invalid s)
    = remove_chars is_space (sanitize_filename s) ++ rest /\
    (rest <> EmptyString -> String.length (sanitize_filename s) = 100%nat) /\
    ((String.length s <= 100)%nat -> rest = EmptyString).
Proof.
  unfold sanitize_filename.
  set (t := strip (collapse_ws false (remove_chars is_invalid s))).
  assert (Et : remove_chars is_space t
               = remove_chars is_space (remove_chars is_invalid s)).
  { unfold t, strip.
    now rewrite remove_ws_rstrip, remove_ws_lstrip, remove_ws_collapse. }
  assert (Hlen : (String.length t <= String.length s)%nat).
  { unfold t, strip.
    pose proof (rstrip_length (lstrip (collapse_ws false (remove_chars is_invalid s)))).
    pose proof (lstrip_length (collapse_ws false (remove_chars is_invalid s))).
    pose proof (collapse_ws_length false (remove_chars is_invalid s)).
    pose proof (remove_chars_length is_invalid s). lia. }
  destruct (Nat.le_gt_cases (String.length t) 100) as [Hle|Hgt].
  - exists EmptyString. rewrite take_all by exact Hle.
    rewrite Et. repeat split; trivial.
    + symmetry. apply append_empty_r.
    + intros H. now contradiction H.
  - destruct (remove_ws_take 100 t) as (rest & E). exists rest.
    rewrite <- Et. repeat split; trivial.
    + intros _. apply take_full. lia.
    + intros H. lia.
Qed.

(** X4: a name of at most 100 characters is never cut, so its result is
    trimmed at both ends. *)
Theorem sanitize_filename_short_trimmed (s : string) :
  (String.length s <= 100)%nat ->
  sanitize_filename s = strip (collapse_ws false (remove_chars is_invalid s)) /\
  is_space_opt (first_char (sanitize_filename s)) = false /\
  is_space_opt (last_char (sanitize_filename s)) = false.
Proof.
  intros Hlen.
  assert (E : sanitize_filename s
              = strip (collapse_ws false (remove_chars is_invalid s))).
  { unfold sanitize_filename. apply take_all. unfold strip.
    pose proof (rstrip_length (lstrip (collapse_ws false (remove_chars is_invalid s)))).
    pose proof (lstrip_length (collapse_ws false (remove_chars is_invalid s))).
    pose proof (collapse_ws_length false (remove_chars is_invalid s)).
    pose proof (remove_chars_length is_invalid s). lia. }
  rewrite E. split; [reflexivity|]. split.
  - apply rstrip_first, lstrip_first.
  - apply rstrip_last.
Qed.

Lemma sanitize_filename_short_trimmed_witness :
  (String.length "  a <b>:  c?  " <= 100)%nat /\
  is_space_opt (last_char (sanitize_filename "  a <b>:  c?  ")) = false.
Proof.
  split; [simpl; lia|].
  apply (sanitize_filename_short_trimmed "  a <b>:  c?  "). simpl; lia.
Defined.

(** A long name can come out with a trailing space: the cut is made after
    trimming. *)
Example sanitize_filename_cut_leaves_space :
  last_char (sanitize_filename (String.concat EmptyString (repeat "a" 99) ++ " b"))
  = Some " "%char.
Proof. vm_compute. reflexivity. Qed.

End SanitizerMore.

(** ** Formatter: bounds of the size format, durations outside the claim *)

Section FormatterMore.
Import PyStr Formatter.

Lemma log1024_floor_above b j :
  0 < b -> 0 <= j -> 1024 ^ j <= b -> j <= log1024_floor b.
Proof.
  intros Hb Hj Hle.
  destruct (log1024_floor_spec b Hb) as (Hi & _ & Hhi).
  destruct (Z.le_gt_cases j (log1024_floor b)) as [|Hgt]; trivial.
  assert (1024 ^ (log1024_floor b + 1) <= 1024 ^ j) by (apply Z.pow_le_mono_r; lia).
  lia.
Qed.

(** X5: the size format raises exactly on a negative count and from one
    tebibyte on; everywhere else it returns a string. *)
Theorem format_file_size_raises_iff (b : Z) :
  format_file_size b = None <-> b < 0 \/ 1024 ^ 4 <= b.
Proof.
  unfold format_file_size.
  destruct (Z.eqb_spec b 0) as [->|Hnz]; [split; [discriminate | lia]|].
  destruct (Z.ltb_spec b 0) as [Hneg|Hpos]; [split; [now left | reflexivity]|].
  assert (Hb : 0 < b) by lia.
  pose proof (log1024_floor_spec b Hb) as (Hi & _ & _).
  destruct (Z.lt_ge_cases b (1024 ^ 4)) as [Hlt|Hge].
  - pose proof (log1024_floor_below b 4 Hb ltac:(lia) Hlt) as Hi4.
    assert (Hc : log1024_floor b = 0 \/ log1024_floor b = 1 \/
                 log1024_floor b = 2 \/ log1024_floor b = 3) by lia.
    split; [|lia].
    destruct Hc as [E|[E|[E|E]]]; rewrite E; discriminate.
  - pose proof (log1024_floor_above b 4 Hb ltac:(lia) Hge) as Hi4.
    split; [now right|]. intros _.
    assert (E : nth_error size_names (Z.to_nat (log1024_floor b)) = None).
    { apply nth_error_None. simpl. lia. }
    now rewrite E.
Qed.

Lemma round2_range b p :
  0 < p -> p <= b < 1024 * p -> 100 <= round2 b p <= 102400.
Proof.
  intros Hp Hb. unfold round2.
  pose proof (Z.div_mod (100 * b) p ltac:(lia)) as Hdm.
  pose proof (Z.mod_pos_bound (100 * b) p Hp) as Hmod.
  set (q := 100 * b / p) in *. set (r := (100 * b) mod p) in *.
  assert (100 <= q <= 102399) by nia.
  destruct (2 * r <? p); [lia|]. destruct (p <? 2 * r); [lia|].
  destruct (Z.even q); lia.
Qed.

(** X6: the number printed before the unit lies between 1.0 and 1024.0,
    both ends included: a count just below the next power of 1024 prints
    as 1024.0 of the smaller unit. *)
Theorem format_file_size_number_range (b : Z) :
  0 < b < 1024 ^ 4 ->
  exists h name,
    format_file_size b = Some (float_repr h ++ " " ++ name) /\
    100 <= h <= 102400.
Proof.
  intros [Hb Hlt].
  destruct (log1024_floor_spec b Hb) as (Hi & Hlo & Hhi).
  pose proof (log1024_floor_below b 4 Hb ltac:(lia) Hlt) as Hi4.
  unfold format_file_size.
  destruct (Z.eqb_spec b 0); [lia|]. destruct (Z.ltb_spec b 0); [lia|].
  set (i := log1024_floor b) in *.
  assert (Hr : 100 <= round2 b (1024 ^ i) <= 102400).
  { apply round2_range; [apply Z.pow_pos_nonneg; lia|].
    rewrite Z.pow_add_r in Hhi by lia. change (1024 ^ 1) with 1024 in Hhi. lia. }
  assert (Hc : i = 0 \/ i = 1 \/ i = 2 \/ i = 3) by lia.
  destruct Hc as [E|[E|[E|E]]]; rewrite E in *; simpl nth_error;
    eexists; eexists; (split; [reflexivity | exact Hr]).
Qed.

Lemma format_file_size_number_range_witness :
  0 < 1048575 < 1024 ^ 4 /\
  format_file_size 1048575 = Some "1024.0 KB" /\
  exists h name,
    format_file_size 1048575 = Some (float_repr h ++ " " ++ name) /\
    100 <= h <= 102400.
Proof.
  split; [lia|]. split; [reflexivity|].
  apply format_file_size_number_range. lia.
Defined.

Lemma str_of_int_negative z :
  z < 0 -> exists rest, str_of_int z = String "-" rest /\ rest <> EmptyString.
Proof.
  destruct z as [|p|p]; try lia. intros _.
  unfold str_of_int. simpl. eexists. split; [reflexivity|].
  unfold NilZero.string_of_uint.
  pose proof (Unsigned.to_uint_nonnil p) as Hn.
  destruct (Pos.to_uint p); simpl; discriminate.
Qed.

(** X7: a negative duration is not refused: it prints with the floor of
    its hours, which is negative, and minutes and seconds counted up from
    that floor. *)
Theorem format_duration_negative (d : Z) :
  d < 0 ->
  let h := d / 3600 in
  let m := (d / 60) mod 60 in
  let s := d mod 60 in
  format_duration (Some d) = str_of_int h ++ ":" ++ pad2 m ++ ":" ++ pad2 s /\
  h <= -1 /\ 0 <= m <= 59 /\ 0 <= s <= 59 /\
  d = 3600 * h + 60 * m + s /\
  first_char (format_duration (Some d)) = Some "-"%char.
Proof.
  intros Hd h m s.
  assert (Hh : d / 60 / 60 = h) by (unfold h; rewrite Z.div_div by lia; reflexivity).
  assert (Hh1 : h <= -1).
  { unfold h. assert (d / 3600 < 0) by (apply Z.div_lt_upper_bound; lia). lia. }
  assert (Hm : 0 <= m <= 59) by (unfold m; pose proof (Z.mod_pos_bound (d / 60) 60); lia).
  assert (Hs : 0 <= s <= 59) by (unfold s; pose proof (Z.mod_pos_bound d 60); lia).
  destruct (str_of_int_negative h ltac:(lia)) as (rest & Estr & Hrest).
  assert (Hpad : pad2 h = str_of_int h).
  { unfold pad2. rewrite Estr. destruct rest; [contradiction | reflexivity]. }
  assert (E : format_duration (Some d) = str_of_int h ++ ":" ++ pad2 m ++ ":" ++ pad2 s).
  { unfold format_duration. destruct (Z.eqb_spec d 0); [lia|].
    rewrite Hh. fold m. fold s. destruct (Z.eqb_spec h 0); [lia|].
    simpl negb. cbv iota. now rewrite Hpad. }
  rewrite E. repeat split; try lia.
  - pose proof (Z.div_mod d 60 ltac:(lia)).
    pose proof (Z.div_mod (d / 60) 60 ltac:(lia)).
    unfold m, s. rewrite <- Hh. lia.
  - rewrite Estr. reflexivity.
Qed.

Lemma format_duration_negative_witness :
  -1 < 0 /\ format_duration (Some (-1)) = "-1:59:59".
Proof.
  split; [lia|].
  exact (proj1 (format_duration_negative (-1) ltac:(lia))).
Defined.

Lemma nonneg_digits x :
  0 <= x ->
  exists u, str_of_int x = NilEmpty.string_of_uint u /\ Z.of_int (Pos u) = x.
Proof.
  intros Hx. destruct x as [|p|p]; try lia.
  - exists (D0 Nil). split; reflexivity.
  - exists (Pos.to_uint p). split.
    + unfold str_of_int. simpl. unfold NilZero.string_of_uint.
      pose proof (Unsigned.to_uint_nonnil p).
      destruct (Pos.to_uint p); trivial. contradiction.
    + exact (DecimalZ.of_to (Z.pos p)).
Qed.

(** Reading a two-digit field back gives the number it was printed from. *)
Lemma int_of_str_pad2 x : 0 <= x -> int_of_str (pad2 x) = Some x.
Proof.
  intros Hx. unfold pad2.
  destruct (String.length (str_of_int x) <? 2)%nat; [|apply int_of_str_of_int].
  destruct (nonneg_digits x Hx) as (u & -> & Hu).
  unfold int_of_str. simpl. rewrite NilEmpty.usu. simpl. f_equal. exact Hu.
Qed.

Lemma pad2_inj x y : 0 <= x -> 0 <= y -> pad2 x = pad2 y -> x = y.
Proof.
  intros Hx Hy E. apply (f_equal int_of_str) in E.
  rewrite !int_of_str_pad2 in E by assumption. congruence.
Qed.

Lemma split_at_colon a a' b b' :
  count_char ":" a = 0%nat -> count_char ":" a' = 0%nat ->
  a ++ ":" ++ b = a' ++ ":" ++ b' -> a = a' /\ b = b'.
Proof.
  revert a'; induction a as [|c a IH]; intros [|c' a'] Ha Ha' E.
  - simpl in E. injection E as E. auto.
  - simpl in E. injection E as Ec _. subst c'. simpl in Ha'. discriminate Ha'.
  - simpl in E. injection E as Ec _. subst c. simpl in Ha. discriminate Ha.
  - simpl in E. injection E as Ec E. subst c'.
    cbn [count_char] in Ha, Ha'.
    destruct (Ascii.eqb ":" c); [discriminate Ha|].
    destruct (IH a' Ha Ha' E) as [Ea Eb]. subst. auto.
Qed.

(** X8: two different positive durations never print alike. *)
Theorem format_duration_injective (d1 d2 : Z) :
  0 < d1 -> 0 < d2 ->
  format_duration (Some d1) = format_duration (Some d2) -> d1 = d2.
Proof.
  assert (Hshape : forall d, 0 < d ->
            exists h m s, 0 <= h /\ 0 <= m /\ 0 <= s /\ d = 3600 * h + 60 * m + s /\
              format_duration (Some d) =
              if h =? 0 then pad2 m ++ ":" ++ pad2 s
              else pad2 h ++ ":" ++ pad2 m ++ ":" ++ pad2 s).
  { intros d Hd. exists (d / 60 / 60), ((d / 60) mod 60), (d mod 60).
    pose proof (Z.mod_pos_bound (d / 60) 60 ltac:(lia)).
    pose proof (Z.mod_pos_bound d 60 ltac:(lia)).
    pose proof (Z.div_mod d 60 ltac:(lia)).
    pose proof (Z.div_mod (d / 60) 60 ltac:(lia)).
    assert (0 <= d / 60) by (apply Z.div_pos; lia).
    assert (0 <= d / 60 / 60) by (apply Z.div_pos; lia).
    repeat split; try lia.
    unfold format_duration. destruct (Z.eqb_spec d 0); [lia|].
    destruct (d / 60 / 60 =? 0); reflexivity. }
  intros H1 H2 E.
  destruct (Hshape d1 H1) as (h1 & m1 & s1 & Hh1 & Hm1 & Hs1 & -> & E1).
  destruct (Hshape d2 H2) as (h2 & m2 & s2 & Hh2 & Hm2 & Hs2 & -> & E2).
  rewrite E1, E2 in E. clear E1 E2 Hshape.
  assert (Hcount := f_equal (count_char ":") E).
  destruct (Z.eqb_spec h1 0) as [->|N1], (Z.eqb_spec h2 0) as [->|N2];
    rewrite ?count_char_app, ?pad2_no_colon in Hcount by lia;
    simpl in Hcount; try discriminate.
  - apply split_at_colon in E as [Em Es]; try (apply pad2_no_colon; lia).
    apply pad2_inj in Em, Es; lia.
  - apply split_at_colon in E as [Eh E]; try (apply pad2_no_colon; lia).
    apply split_at_colon in E as [Em Es]; try (apply pad2_no_colon; lia).
    apply pad2_inj in Eh, Em, Es; lia.
Qed.

Lemma format_duration_injective_witness :
  0 < 59 /\ format_duration (Some 59) = format_duration (Some (60 - 1)) /\
  59 = 60 - 1.
Proof.
  split; [lia|]. split; [reflexivity|].
  apply format_duration_injective; [lia | lia | reflexivity].
Defined.

End FormatterMore.

(** ** Metadata extractor: the whole derivation and the call around it *)

Section MetadataMore.
Import PyStr Metadata Effects App.

Lemma keyword_label_height h :
  In (label h) (map snd keyword_table) -> In h [144; 240; 360; 480; 720; 1080].
Proof.
  unfold keyword_table. cbn [map snd]. intros H.
  destruct H as [H|[H|[H|[H|[H|[H|H]]]]]];
    [apply (label_inj 144 h) in H | apply (label_inj 240 h) in H
     | apply (label_inj 360 h) in H | apply (label_inj 480 h) in H
     | apply (label_inj 720 h) in H | apply (label_inj 1080 h) in H
     | destruct H];
    subst h; simpl; tauto.
Qed.

(** The primary tier on its own. *)
Lemma primary_shape formats :
  exists hs,
    primary_qualities formats = Some (map label hs) /\
    StronglySorted Z.gt hs /\
    (forall h, In h hs <-> exists f, In f formats /\ contributes f h).
Proof.
  destruct (collect_heights_spec formats) as (hs0 & E & Hnd & Hin).
  destruct (sorted_by_height_desc_labels hs0 Hnd) as (hs & Es & Hs & Hp).
  exists hs. unfold primary_qualities. rewrite E. repeat split; trivial.
  - intros H. apply (Permutation_in _ (Permutation_sym Hp)), Hin in H. exact H.
  - intros H. apply (Permutation_in _ Hp), Hin. exact H.
Qed.

(** The fallback tier on its own, once the second loop has gone through:
    sorted labels of table heights. *)
Lemma fallback_shape formats notes :
  collect_notes formats = Some notes ->
  exists hs,
    sorted_by_height_desc (set_of_list notes) = Some (map label hs) /\
    StronglySorted Z.gt hs /\
    Forall (fun h => In h [144; 240; 360; 480; 720; 1080]) hs.
Proof.
  intros En.
  assert (Hno : forall f, In f formats -> format_note f <> Some None).
  { intros f Hf E.
    assert (collect_notes formats = None); [|congruence].
    apply collect_notes_raises. now exists f. }
  destruct (collect_notes_from formats [] Hno) as (notes' & En' & Hn).
  fold (collect_notes formats) in En'. rewrite En in En'. injection En' as <-.
  destruct (set_of_list_from notes [] (NoDup_nil _)) as [Hnd Hs].
  fold (set_of_list notes) in Hnd, Hs.
  assert (Hmem : forall x, In x (set_of_list notes) ->
                           exists h, x = label h /\ In x (map snd keyword_table)).
  { intros x Hx. apply Hs in Hx as [[ ]|Hx].
    apply Hn in Hx as [[ ]|(f & n & _ & _ & Hx)].
    now apply note_label_height in Hx. }
  destruct (labels_of (set_of_list notes)) as (hs0 & E).
  { intros x Hx. destruct (Hmem x Hx) as (h & -> & _). now exists h. }
  rewrite E in *.
  assert (Hnd0 : NoDup hs0) by (eapply NoDup_map_inv; eassumption).
  destruct (sorted_by_height_desc_labels hs0 Hnd0) as (hs & Es & Hsort & Hperm).
  exists hs. repeat split; trivial.
  apply Forall_forall. intros h Hh.
  apply (Permutation_in _ (Permutation_sym Hperm)) in Hh.
  destruct (Hmem (label h) (in_map label _ _ Hh)) as (_ & _ & Hk).
  now apply keyword_label_height.
Qed.

(** The three ways the derivation can end. *)
Lemma derive_cases formats :
  (exists h r,
     primary_qualities formats = Some (map label (h :: r)) /\
     derive formats = Qualities (map label (h :: r)) /\
     StronglySorted Z.gt (h :: r) /\ Forall (fun k => 0 < k) (h :: r)) \/
  (primary_qualities formats = Some [] /\
   (exists f, In f formats /\ format_note f = Some None) /\
   derive formats = Raises attribute_error) \/
  (primary_qualities formats = Some [] /\
   (forall f, In f formats -> format_note f <> Some None) /\
   exists hs,
     derive formats = Qualities (map label hs) /\
     StronglySorted Z.gt hs /\ Forall (fun k => 0 < k) hs).
Proof.
  unfold derive.
  destruct (primary_shape formats) as (hs & E & Hs & Hin). rewrite E.
  destruct hs as [|h r].
  - right. simpl. destruct (collect_notes formats) as [notes|] eqn:En.
    + right. split; trivial. split.
      * intros f Hf Ef.
        assert (collect_notes formats = None); [|congruence].
        apply collect_notes_raises. now exists f.
      * destruct (fallback_shape formats notes En) as (hs' & -> & Hs' & Hall).
        exists hs'. repeat split; trivial.
        eapply Forall_impl; [|exact Hall]. simpl. intros a Ha.
        repeat (destruct Ha as [Ha|Ha]; [subst a; lia|]). destruct Ha.
    + left. split; trivial. split; trivial.
      now apply collect_notes_raises in En.
  - left. exists h, r. simpl. repeat split; trivial.
    apply Forall_forall. intros k Hk. apply Hin in Hk as (f & _ & _ & _ & Hpos).
    exact Hpos.
Qed.

(** X9: on descriptors with integer heights the derivation raises in one
    case only, the fallback loop meeting a note whose value is None (an
    AttributeError); the integer parse of the sort key never fails.  Every
    list it returns is made of labels of positive heights in strictly
    descending order. *)
Theorem video_qualities_raises_iff (formats : list format_descriptor) :
  (Metadata.video_qualities formats = None <->
   primary_qualities formats = Some [] /\
   exists f, In f formats /\ format_note f = Some None) /\
  (Metadata.video_qualities formats = None ->
   derive formats = Raises attribute_error) /\
  (forall q, Metadata.video_qualities formats = Some q ->
             exists hs, q = map label hs /\ StronglySorted Z.gt hs /\
                        Forall (fun h => 0 < h) hs).
Proof.
  unfold Metadata.video_qualities.
  destruct (derive_cases formats)
    as [(h & r & Ep & -> & Hs & Hpos)
       |[(Ep & Hex & ->)|(Ep & Hno & hs & -> & Hs & Hpos)]].
  - split; [|split].
    + split; [discriminate|]. intros [E _]. rewrite E in Ep. discriminate.
    + discriminate.
    + intros q [= <-]. exists (h :: r). auto.
  - split; [|split].
    + tauto.
    + reflexivity.
    + discriminate.
  - split; [|split].
    + split; [discriminate|]. intros [_ (f & Hf & E)]. now apply Hno in E.
    + discriminate.
    + intros q [= <-]. exists hs. auto.
Qed.

(** X10: as soon as one descriptor has a video codec and a positive height,
    the format notes play no part: the result is the height-based list,
    which is then not empty. *)
Theorem video_qualities_primary_wins (formats : list format_descriptor)
  (f : format_descriptor) (h : Z) :
  In f formats -> has_video f = true -> height f = Some h -> 0 < h ->
  Metadata.video_qualities formats = primary_qualities formats /\
  exists q, Metadata.video_qualities formats = Some q /\ In (label h) q.
Proof.
  intros Hf Hv Hh Hpos. unfold Metadata.video_qualities, derive.
  destruct (primary_shape formats) as (hs & E & Hs & Hin). rewrite E.
  assert (Hk : In h hs) by (apply Hin; exists f; unfold contributes; auto).
  destruct hs as [|k r]; [destruct Hk|]. simpl. split; trivial.
  eexists. split; [reflexivity|]. now apply (in_map label) in Hk.
Qed.

Lemma video_qualities_primary_wins_witness :
  Metadata.video_qualities [mkFormat (Some "vp9") (Some 720) (Some None); noted "hd1080"]
  = primary_qualities [mkFormat (Some "vp9") (Some 720) (Some None); noted "hd1080"] /\
  exists q,
    Metadata.video_qualities [mkFormat (Some "vp9") (Some 720) (Some None); noted "hd1080"]
    = Some q /\ In (label 720) q.
Proof.
  apply (video_qualities_primary_wins _ (mkFormat (Some "vp9") (Some 720) (Some None)) 720).
  - now left.
  - reflexivity.
  - reflexivity.
  - lia.
Defined.

(** X11: the extractor calls the library once, in metadata-only mode.  When
    the library raises, it shows the library's message and returns nothing.
    When the library returns, it either returns a record without showing
    any error, keys the library left out taking their defaults and the
    quality list being strictly descending, or, the height-based tier
    being empty and some note having the value None, shows the attribute
    error and returns nothing. *)
Theorem get_video_info_spec (lib : library) (url : string) :
  match lib info_opts url false with
  | Raised e =>
      get_video_info lib url =
      (Some None,
       [LibraryCall info_opts url false;
        StError ("Error extracting video info: " ++ e)])
  | Returned info _ =>
      (primary_qualities (get (info_formats info) []) = Some [] /\
       (exists f, In f (get (info_formats info) []) /\ format_note f = Some None) /\
       get_video_info lib url =
       (Some None,
        [LibraryCall info_opts url false;
         StError ("Error extracting video info: " ++ attribute_error)])) \/
      (exists hs,
         Metadata.video_qualities (get (info_formats info) []) = Some (map label hs) /\
         StronglySorted Z.gt hs /\
         (primary_qualities (get (info_formats info) []) = Some [] ->
          forall f, In f (get (info_formats info) []) -> format_note f <> Some None) /\
         get_video_info lib url =
         (Some (Some (mkVideoInfo
                        (get (info_title info) "Unknown")
                        (get (info_duration info) 0)
                        (get (info_uploader info) "Unknown")
                        (get (info_view_count info) 0)
                        (map label hs)
                        (get (info_thumbnail info) EmptyString)
                        (get (info_id info) EmptyString))),
          [LibraryCall info_opts url false]))
  end.
Proof.
  unfold get_video_info, Metadata.video_qualities.
  destruct (lib info_opts url false) as [e|info listing]; [reflexivity|].
  destruct (derive_cases (get (info_formats info) []))
    as [(h & r & Ep & -> & Hs & Hpos)
       |[(Ep & Hex & ->)|(Ep & Hno & hs & -> & Hs & Hpos)]].
  - right. exists (h :: r). repeat split; trivial.
    intros E. rewrite E in Ep. discriminate.
  - left. repeat split; trivial.
  - right. exists hs. repeat split; trivial.
Qed.

(** C3: the claim fails on two descriptors without heights, the first
    with a note of value None, the second noted tiny.  The height-based
    tier is empty and the second descriptor alone gives 144p, yet on the
    pair the second loop raises instead: the derivation returns no list,
    and the extractor shows the attribute error and returns nothing. *)
Theorem fallback_none_note_raises :
  primary_qualities [none_noted; noted "tiny"] = Some [] /\
  Metadata.video_qualities [noted "tiny"] = Some ["144p"] /\
  derive [none_noted; noted "tiny"] = Raises attribute_error /\
  Metadata.video_qualities [none_noted; noted "tiny"] = None /\
  get_video_info
    (fun _ _ _ =>
       Returned (mkInfo (Some "A title") None None None
                   (Some [none_noted; noted "tiny"]) None None) [])
    "https://youtu.be/abc123"
  = (Some None,
     [LibraryCall info_opts "https://youtu.be/abc123" false;
      StError "Error extracting video info: 'NoneType' object has no attribute 'lower'"]).
Proof. repeat split; vm_compute; reflexivity. Qed.

End MetadataMore.

(** ** Download orchestrator: one attempt, no silent failure, safe names *)

Section DownloadMore.
Import PyStr Effects Download.

(** X12: a download call never raises and makes exactly one library call,
    in download mode, before anything else; it then either returns bytes
    with a filename and shows nothing, or returns the pair of nulls and
    shows exactly one non-empty error message. *)
Theorem download_single_attempt (lib : library) (temp_dir url : string)
  (m : mode) (quality : string) :
  let opts := opts_of temp_dir m quality in
  let r := download lib temp_dir url m quality in
  (exists data filename,
     r = (Some (Some data, Some filename), [LibraryCall opts url true])) \/
  (exists msg,
     msg <> EmptyString /\
     r = (Some (None, None), [LibraryCall opts url true; StError msg])).
Proof.
  intros opts r. pose proof (download_cases lib temp_dir url m quality) as H.
  cbv zeta in H. fold opts in H. fold r in H.
  destruct (lib opts url true) as [e|info listing]; [now right|].
  destruct (produced_file m listing) as [[n data]|]; [|now right].
  destruct (info_title info) as [title|]; [|now right].
  left. eauto.
Qed.

(** X13: when the library returns and the file is there but the info
    dictionary has no title, the bytes are dropped: the call returns the
    pair of nulls and shows the key error. *)
Theorem download_missing_title (lib : library) (temp_dir url : string)
  (m : mode) (quality : string) info listing file data :
  lib (opts_of temp_dir m quality) url true = Returned info listing ->
  produced_file m listing = Some (file, data) ->
  info_title info = None ->
  download lib temp_dir url m quality =
  (Some (None, None),
   [LibraryCall (opts_of temp_dir m quality) url true;
    StError ("Error downloading " ++ mode_name m ++ ": 'title'")]).
Proof.
  intros E Hf Ht. destruct m; unfold download, opts_of in *.
  - unfold download_audio_to_memory. rewrite E, read_path_audio, Hf, Ht. reflexivity.
  - unfold download_video_to_memory. rewrite E.
    pose proof (downloaded_files_first temp_dir listing) as H. rewrite Hf in H.
    destruct H as (rest & -> & ->). rewrite Ht. reflexivity.
Qed.

Lemma download_missing_title_witness :
  download (fun _ _ _ => Returned (mkInfo None None None None None None None)
                                  Samples.webm_first)
           "/tmp/t" "u" Video "best"
  = (Some (None, None),
     [LibraryCall (opts_of "/tmp/t" Video "best") "u" true;
      StError "Error downloading video: 'title'"]).
Proof.
  exact (download_missing_title
           (fun _ _ _ => Returned (mkInfo None None None None None None None)
                                  Samples.webm_first)
           "/tmp/t" "u" Video "best" _ _ "video.webm" Samples.webm_bytes
           eq_refl eq_refl eq_refl).
Defined.

Lemma sanitize_filename_valid_chars s c :
  In c (chars (Sanitizer.sanitize_filename s)) -> Sanitizer.is_invalid c = false.
Proof.
  unfold Sanitizer.sanitize_filename. intros H.
  apply take_chars, rstrip_chars, lstrip_chars, collapse_ws_chars in H.
  destruct H as [->|[H _]]; [reflexivity|].
  now apply remove_chars_spec in H.
Qed.

Lemma expected_extension_shape m :
  String.length (expected_extension m) = 4%nat /\
  forall c, In c (chars (expected_extension m)) -> Sanitizer.is_invalid c = false.
Proof.
  destruct m; (split; [reflexivity|]); simpl; intros c H;
    repeat (destruct H as [H|H]; [subst c; reflexivity|]); destruct H.
Qed.

(** X14: every filename a download returns ends in the extension of its
    mode, is between 4 and 104 characters long and holds none of the
    forbidden characters. *)
Theorem download_filename_safe (lib : library) (temp_dir url : string)
  (m : mode) (quality : string) data filename :
  value (download lib temp_dir url m quality) = Some (Some data, Some filename) ->
  (exists stem, filename = stem ++ expected_extension m) /\
  (4 <= String.length filename <= 104)%nat /\
  (forall c, In c (chars filename) -> ~ In c Sanitizer.invalid_chars).
Proof.
  intros Hv. pose proof (download_cases lib temp_dir url m quality) as H.
  cbv zeta in H.
  assert (E : exists title,
             filename = Sanitizer.sanitize_filename title ++ expected_extension m).
  { destruct (lib _ url true) as [e|info listing].
    - destruct H as (msg & _ & H). rewrite H in Hv. discriminate.
    - destruct (produced_file m listing) as [[n d]|];
        [destruct (info_title info) as [title|]|].
      + rewrite H in Hv. injection Hv as _ <-. now exists title.
      + destruct H as (msg & _ & H). rewrite H in Hv. discriminate.
      + destruct H as (msg & _ & H). rewrite H in Hv. discriminate. }
  destruct E as (title & ->).
  destruct (expected_extension_shape m) as [Hlen Hext].
  split; [eauto|]. split.
  - rewrite append_length, Hlen.
    pose proof (take_length 100 (strip (collapse_ws false
                  (remove_chars Sanitizer.is_invalid title)))) as Ht.
    fold (Sanitizer.sanitize_filename title) in Ht. lia.
  - intros c Hc Hbad. rewrite append_chars, in_app_iff in Hc.
    assert (Hi : Sanitizer.is_invalid c = false)
      by (destruct Hc; [eapply sanitize_filename_valid_chars | apply Hext]; eauto).
    assert (Sanitizer.is_invalid c = true); [|congruence].
    apply existsb_exists. exists c. split; trivial. apply Ascii.eqb_refl.
Qed.

Lemma download_filename_safe_witness :
  value (download (Samples.lib_leaves Samples.webm_first) "/tmp/t" "u" Video "best")
  = Some (Some Samples.webm_bytes, Some "My Video.mp4") /\
  (4 <= String.length "My Video.mp4" <= 104)%nat.
Proof.
  split; [reflexivity|].
  exact (proj1 (proj2 (download_filename_safe
                         (Samples.lib_leaves Samples.webm_first) "/tmp/t" "u"
                         Video "best" Samples.webm_bytes "My Video.mp4" eq_refl))).
Defined.

End DownloadMore.

(** ** Main flow: what one run of the page can do *)

Section AppMore.
Import PyStr Effects App.

Lemma bind_value {A B : Type} (m : io A) (k : A -> io B) :
  value (bind m k) = match value m with Some a => value (k a) | None => None end.
Proof.
  destruct m as [[a|] t]; simpl; trivial. now destruct (k a).
Qed.

Lemma bind_in {A B : Type} (m : io A) (k : A -> io B) e :
  In e (trace (bind m k)) <->
  In e (trace m) \/ exists a, value m = Some a /\ In e (trace (k a)).
Proof.
  destruct m as [[a|] t]; simpl.
  - destruct (k a) as [b t'] eqn:Ek. simpl. rewrite in_app_iff. split.
    + intros [H|H]; [now left|]. right. exists a. rewrite Ek. auto.
    + intros [H|(a' & [= <-] & H)]; [now left|]. rewrite Ek in H. now right.
  - split; [now left|]. intros [H|(a' & [=] & _)]. exact H.
Qed.

(** The events of one download button, by origin. *)
Lemma download_section_events m quality label mime call e :
  In e (trace (download_section m quality label mime call)) ->
  e = ShowPreparing (Download.mode_name m) quality \/
  In e (trace call) \/
  e = ShowFailed (Download.mode_name m) \/
  exists data filename size,
    value call = Some (Some data, Some filename) /\ data <> [] /\
    Formatter.format_file_size (Z.of_nat (List.length data)) = Some size /\
    (e = ShowReady (Download.mode_name m) filename size quality \/
     e = OfferDownload label data filename mime).
Proof.
  unfold download_section.
  replace (match m with Download.Audio => "audio" | Download.Video => "video" end)
    with (Download.mode_name m) by now destruct m.
  rewrite bind_in. intros [H|(u & _ & H)].
  - simpl in H. destruct H as [<-|[ ]]. now left.
  - rewrite bind_in in H. destruct H as [H|(r & Hr & H)]; [auto|].
    destruct (both_truthy r) as [[data filename]|] eqn:Hb.
    + assert (Hres : r = (Some data, Some filename) /\ data <> []).
      { unfold both_truthy in Hb. destruct r as [[d|] [n|]]; try discriminate.
        destruct d; [discriminate|]. destruct n; [discriminate|].
        injection Hb as <- <-. split; [reflexivity | discriminate]. }
      destruct Hres as [-> Hne].
      destruct (Formatter.format_file_size (Z.of_nat (List.length data)))
        as [size|] eqn:Hsz; [|destruct H].
      right. right. right. exists data, filename, size.
      repeat split; trivial.
      rewrite bind_in in H. destruct H as [H|(u' & _ & H)]; simpl in H;
        destruct H as [<-|[ ]]; auto.
    + simpl in H. destruct H as [<-|[ ]]. auto.
Qed.

(** The events of one run, by origin. *)
Lemma main_events lib ta tv ui e :
  In e (trace (main lib ta tv ui)) ->
  e = StError "Please enter a valid YouTube URL" \/
  e = ShowInstructions \/
  (valid_url (text_input ui) = true /\
   (In e (trace (get_video_info lib (text_input ui))) \/
    exists info,
      value (get_video_info lib (text_input ui)) = Some (Some info) /\
      ((exists th t u d v, e = ShowVideoInfo th t u d v) \/
       (mp3_btn ui = true /\
        In e (trace (download_section Download.Audio None
                       "Download MP3 File" "audio/mpeg"
                       (Download.download_audio_to_memory lib ta (text_input ui))))) \/
       (mp4_btn ui = true /\
        exists q,
          In q ("best" :: video_qualities info) /\
          In e (trace (download_section Download.Video (Some q)
                         "Download MP4 File" "video/mp4"
                         (Download.download_video_to_memory lib tv
                            (text_input ui) q))))))).
Proof.
  unfold main.
  destruct (String.eqb (text_input ui) EmptyString); cbn [negb];
    [simpl; intros [<-|[ ]]; auto|].
  destruct (valid_url (text_input ui)); cbn [negb];
    [|simpl; intros [<-|[ ]]; auto].
  rewrite bind_in. intros [H|(oi & Hv & H)]; [right; right; auto|].
  destruct oi as [info|]; [|simpl in H; destruct H as [<-|[ ]]; auto].
  rewrite bind_in in H. destruct H as [H|(u1 & _ & H)].
  { simpl in H. destruct H as [<-|[ ]].
    right. right. split; trivial. right. exists info. split; trivial.
    left. do 5 eexists. reflexivity. }
  rewrite bind_in in H. destruct H as [H|(u2 & _ & H)].
  { destruct (mp3_btn ui) eqn:E3; [|destruct H].
    right. right. split; trivial. right. exists info. auto. }
  rewrite bind_in in H. destruct H as [H|(u3 & _ & H)].
  { destruct (mp4_btn ui) eqn:E4; [|destruct H].
    right. right. split; trivial. right. exists info. split; trivial.
    right. right. split; trivial.
    exists (nth (selectbox ui) ("best" :: video_qualities info) "best").
    split; [|exact H].
    destruct (Nat.lt_ge_cases (selectbox ui)
                (List.length ("best" :: video_qualities info))) as [Hlt|Hge].
    - now apply nth_In.
    - rewrite nth_overflow by exact Hge. now left. }
  simpl in H. destruct H as [<-|[ ]]. auto.
Qed.

Lemma download_trace_events lib temp_dir url m quality e :
  In e (trace (Download.download lib temp_dir url m quality)) ->
  e = LibraryCall (Download.opts_of temp_dir m quality) url true \/
  exists msg, e = StError msg.
Proof.
  pose proof (download_cases lib temp_dir url m quality) as H. cbv zeta in H.
  assert (Hshape :
    trace (Download.download lib temp_dir url m quality)
      = [LibraryCall (Download.opts_of temp_dir m quality) url true] \/
    exists msg, trace (Download.download lib temp_dir url m quality)
      = [LibraryCall (Download.opts_of temp_dir m quality) url true; StError msg]).
  { destruct (lib _ url true) as [x|info listing].
    - destruct H as (msg & _ & ->). right. now exists msg.
    - destruct (Download.produced_file m listing) as [[n d]|];
        [destruct (info_title info)|].
      + rewrite H. now left.
      + destruct H as (msg & _ & ->). right. now exists msg.
      + destruct H as (msg & _ & ->). right. now exists msg. }
  destruct Hshape as [->|(msg & ->)]; simpl.
  - intros [<-|[ ]]. now left.
  - intros [<-|[<-|[ ]]]; [now left | right; now exists msg].
Qed.

(** X15: a URL that passes the check reaches the library: the first thing
    the run does is the metadata call on that URL. *)
Theorem main_accepted_url_first_call (lib : library)
  (temp_dir_audio temp_dir_video : string) (ui : ui_inputs) :
  text_input ui <> EmptyString ->
  valid_url (text_input ui) = true ->
  exists rest,
    trace (main lib temp_dir_audio temp_dir_video ui)
    = LibraryCall info_opts (text_input ui) false :: rest.
Proof.
  intros Hne Hv. unfold main.
  destruct (String.eqb_spec (text_input ui) EmptyString) as [|_]; [contradiction|].
  rewrite Hv. cbn [negb]. unfold get_video_info.
  destruct (lib info_opts (text_input ui) false) as [e|info listing].
  - eexists. reflexivity.
  - destruct (Metadata.derive (get (info_formats info) [])) as [q|msg].
    + cbn [bind emit ret trace snd fst app].
      match goal with
      | |- context [bind ?m ?k] => destruct (bind m k) as [v t]
      end.
      eexists. reflexivity.
    + eexists. reflexivity.
Qed.

Lemma main_accepted_url_first_call_witness :
  text_input Samples.accepted_ui <> EmptyString /\
  valid_url (text_input Samples.accepted_ui) = true /\
  exists rest,
    trace (main Samples.lib_raises "/tmp/a" "/tmp/v" Samples.accepted_ui)
    = LibraryCall info_opts (text_input Samples.accepted_ui) false :: rest.
Proof.
  assert (Hne : text_input Samples.accepted_ui <> EmptyString) by discriminate.
  split; [exact Hne|]. split; [reflexivity|].
  exact (main_accepted_url_first_call Samples.lib_raises "/tmp/a" "/tmp/v"
           Samples.accepted_ui Hne eq_refl).
Defined.

(** X16: when the metadata call raises, the run shows that error and the
    closing notes and stops there: no download is attempted, whichever
    buttons were pressed. *)
Theorem main_metadata_failure (lib : library)
  (temp_dir_audio temp_dir_video : string) (ui : ui_inputs) (e : string) :
  text_input ui <> EmptyString ->
  valid_url (text_input ui) = true ->
  lib info_opts (text_input ui) false = Raised e ->
  main lib temp_dir_audio temp_dir_video ui =
  (Some tt,
   [LibraryCall info_opts (text_input ui) false;
    StError ("Error extracting video info: " ++ e);
    ShowInstructions]).
Proof.
  intros Hne Hv Hr. unfold main.
  destruct (String.eqb_spec (text_input ui) EmptyString) as [|_]; [contradiction|].
  rewrite Hv. cbn [negb]. unfold get_video_info. rewrite Hr. reflexivity.
Qed.

Lemma main_metadata_failure_witness :
  main Samples.lib_raises "/tmp/a" "/tmp/v"
       (mkUi "https://youtu.be/abc123" true true true 0)
  = (Some tt,
     [LibraryCall info_opts "https://youtu.be/abc123" false;
      StError "Error extracting video info: network unreachable";
      ShowInstructions]).
Proof.
  refine (main_metadata_failure Samples.lib_raises "/tmp/a" "/tmp/v"
            (mkUi "https://youtu.be/abc123" true true true 0)
            "network unreachable" _ eq_refl eq_refl).
  discriminate.
Defined.

(** X17: every library call of a run is made on the URL typed in; a call in
    download mode happens only for a pressed button, with the options of
    that button's mode. *)
Theorem main_library_calls (lib : library)
  (temp_dir_audio temp_dir_video : string) (ui : ui_inputs) opts url download :
  In (LibraryCall opts url download)
     (trace (main lib temp_dir_audio temp_dir_video ui)) ->
  url = text_input ui /\
  valid_url url = true /\
  (download = false -> opts = info_opts) /\
  (download = true ->
   (mp3_btn ui = true /\
    opts = Download.opts_of temp_dir_audio Download.Audio "best") \/
   (mp4_btn ui = true /\
    exists q, opts = Download.opts_of temp_dir_video Download.Video q)).
Proof.
  intros H. apply main_events in H.
  destruct H as [H|[H|(Hv & H)]]; try discriminate H.
  assert (Hsec : forall m q label mime td qual,
            In (LibraryCall opts url download)
               (trace (download_section m q label mime
                         (Download.download lib td (text_input ui) m qual))) ->
            url = text_input ui /\ download = true /\
            opts = Download.opts_of td m qual).
  { intros m q label mime td qual Hin.
    apply download_section_events in Hin.
    destruct Hin as [Hin|[Hin|[Hin|(d & n & s & _ & _ & _ & [Hin|Hin])]]];
      try discriminate Hin.
    apply download_trace_events in Hin as [Hin|(msg & Hin)]; [|discriminate Hin].
    injection Hin as -> -> ->. auto. }
  destruct H as [H|(info & _ & [(th & t & u & d & v & H)|[(E3 & H)|(E4 & q & _ & H)]])].
  - unfold get_video_info in H. rewrite bind_in in H.
    destruct H as [H|(u & _ & H)].
    + simpl in H. destruct H as [H|[ ]]. injection H as <- <- <-.
      repeat split; trivial. discriminate.
    + destruct (lib info_opts (text_input ui) false) as [x|i l];
        [|destruct (Metadata.derive _)]; simpl in H;
        repeat (destruct H as [H|H]; [discriminate H|]); destruct H.
  - discriminate H.
  - apply (Hsec Download.Audio None _ _ temp_dir_audio "best") in H
      as (-> & -> & ->).
    repeat split; trivial; [discriminate|]. intros _. now left.
  - apply (Hsec Download.Video (Some q) _ _ temp_dir_video q) in H
      as (-> & -> & ->).
    repeat split; trivial; [discriminate|]. intros _. right. split; trivial.
    now exists q.
Qed.

Lemma main_library_calls_witness :
  In (LibraryCall (Download.opts_of "/tmp/a" Download.Audio "best")
        "https://youtu.be/abc123" true)
     (trace (main (Samples.lib_leaves []) "/tmp/a" "/tmp/v"
               (mkUi "https://youtu.be/abc123" true true false 0))) /\
  "https://youtu.be/abc123" =
  text_input (mkUi "https://youtu.be/abc123" true true false 0).
Proof.
  assert (H : In (LibraryCall (Download.opts_of "/tmp/a" Download.Audio "best")
                    "https://youtu.be/abc123" true)
                 (trace (main (Samples.lib_leaves []) "/tmp/a" "/tmp/v"
                           (mkUi "https://youtu.be/abc123" true true false 0)))).
  { vm_compute. right. right. right. left. reflexivity. }
  split; [exact H|].
  exact (proj1 (main_library_calls _ _ _ _ _ _ _ H)).
Defined.

Lemma download_value lib temp_dir url m quality :
  value (Download.download lib temp_dir url m quality) = Some (None, None) \/
  exists info listing file data title,
    lib (Download.opts_of temp_dir m quality) url true = Returned info listing /\
    In (file, data) listing /\
    value (Download.download lib temp_dir url m quality)
    = Some (Some data,
            Some (Sanitizer.sanitize_filename title ++ Download.expected_extension m)).
Proof.
  pose proof (download_cases lib temp_dir url m quality) as H. cbv zeta in H.
  destruct (lib _ url true) as [x|info listing] eqn:El.
  - destruct H as (msg & _ & ->). now left.
  - destruct (Download.produced_file m listing) as [[n d]|] eqn:Hf;
      [destruct (info_title info) as [title|]|].
    + right. exists info, listing, n, d, title. rewrite H.
      repeat split; trivial.
      destruct m; simpl in Hf; apply find_some in Hf; tauto.
    + destruct H as (msg & _ & ->). now left.
    + destruct H as (msg & _ & ->). now left.
Qed.

(** X18: whatever a run offers for saving was returned by a download call of
    that run, is not empty, and carries the label, the MIME type and the
    extension of its mode. *)
Theorem main_offers_well_formed (lib : library)
  (temp_dir_audio temp_dir_video : string) (ui : ui_inputs)
  (label : string) (data : bytes) (file_name mime : string) :
  In (OfferDownload label data file_name mime)
     (trace (main lib temp_dir_audio temp_dir_video ui)) ->
  data <> [] /\
  ((label = "Download MP3 File" /\ mime = "audio/mpeg" /\
    (exists stem, file_name = stem ++ ".mp3") /\
    value (Download.download_audio_to_memory lib temp_dir_audio (text_input ui))
    = Some (Some data, Some file_name)) \/
   (label = "Download MP4 File" /\ mime = "video/mp4" /\
    (exists stem, file_name = stem ++ ".mp4") /\
    exists q,
      value (Download.download_video_to_memory lib temp_dir_video (text_input ui) q)
      = Some (Some data, Some file_name))).
Proof.
  intros H. apply main_events in H.
  destruct H as [H|[H|(Hv & H)]]; try discriminate H.
  assert (Hsec : forall m q lbl mi td qual,
            In (OfferDownload label data file_name mime)
               (trace (download_section m q lbl mi
                         (Download.download lib td (text_input ui) m qual))) ->
            data <> [] /\ label = lbl /\ mime = mi /\
            (exists stem, file_name = stem ++ Download.expected_extension m) /\
            value (Download.download lib td (text_input ui) m qual)
            = Some (Some data, Some file_name)).
  { intros m q lbl mi td qual Hin.
    apply download_section_events in Hin.
    destruct Hin as [Hin|[Hin|[Hin|(d & n & s & Hval & Hne & _ & [Hin|Hin])]]];
      try discriminate Hin.
    - apply download_trace_events in Hin as [Hin|(msg & Hin)]; discriminate Hin.
    - injection Hin as -> -> -> ->. repeat split; trivial.
      destruct (download_value lib td (text_input ui) m qual)
        as [E|(i & l & f & d' & t & _ & _ & E)]; rewrite E in Hval.
      + discriminate Hval.
      + injection Hval as _ <-. eauto. }
  destruct H as [H|(info & _ & [(th & t & u & d & v & H)|[(E3 & H)|(E4 & q & _ & H)]])].
  - unfold get_video_info in H. rewrite bind_in in H.
    destruct H as [H|(u & _ & H)].
    + simpl in H. destruct H as [H|[ ]]. discriminate H.
    + destruct (lib info_opts (text_input ui) false) as [x|i l];
        [|destruct (Metadata.derive _)]; simpl in H;
        repeat (destruct H as [H|H]; [discriminate H|]); destruct H.
  - discriminate H.
  - apply (Hsec Download.Audio None _ _ temp_dir_audio "best") in H
      as (Hne & -> & -> & Hext & Hval).
    split; trivial. left. auto.
  - apply (Hsec Download.Video (Some q) _ _ temp_dir_video q) in H
      as (Hne & -> & -> & Hext & Hval).
    split; trivial. right. repeat split; trivial. now exists q.
Qed.

Lemma main_offers_well_formed_witness :
  In (OfferDownload "Download MP4 File" Samples.webm_bytes "My Video.mp4" "video/mp4")
     (trace (main (Samples.lib_leaves Samples.webm_first) "/tmp/a" "/tmp/v"
               (mkUi "https://youtu.be/abc123" true false true 1))) /\
  Samples.webm_bytes <> [].
Proof.
  assert (H : In (OfferDownload "Download MP4 File" Samples.webm_bytes
                    "My Video.mp4" "video/mp4")
                 (trace (main (Samples.lib_leaves Samples.webm_first) "/tmp/a" "/tmp/v"
                           (mkUi "https://youtu.be/abc123" true false true 1)))).
  { vm_compute. do 5 right. left. reflexivity. }
  split; [exact H|].
  exact (proj1 (main_offers_well_formed _ _ _ _ _ _ _ _ H)).
Defined.

Lemma format_file_size_returns b :
  0 <= b < 1024 ^ 4 -> exists s, Formatter.format_file_size b = Some s.
Proof.
  intros [Hb Hlt]. unfold Formatter.format_file_size.
  destruct (Z.eqb_spec b 0); [eauto|]. destruct (Z.ltb_spec b 0); [lia|].
  assert (Hpos : 0 < b) by lia.
  destruct (log1024_floor_spec b Hpos) as (Hi & _ & _).
  pose proof (log1024_floor_below b 4 Hpos ltac:(lia) Hlt) as Hi4.
  assert (Hc : Formatter.log1024_floor b = 0 \/ Formatter.log1024_floor b = 1 \/
               Formatter.log1024_floor b = 2 \/ Formatter.log1024_floor b = 3) by lia.
  destruct Hc as [E|[E|[E|E]]]; rewrite E; simpl nth_error; eauto.
Qed.

Lemma download_section_value m quality label mime call r :
  value call = Some r ->
  (forall data filename, r = (Some data, Some filename) ->
                         Z.of_nat (List.length data) < 1024 ^ 4) ->
  value (download_section m quality label mime call) = Some tt.
Proof.
  intros Hc Hsmall. unfold download_section.
  destruct call as [v t]. simpl in Hc. subst v.
  unfold bind at 1. cbn [emit]. unfold bind at 1.
  destruct (both_truthy r) as [[data filename]|] eqn:Hb; [|reflexivity].
  assert (Hr : r = (Some data, Some filename)).
  { unfold both_truthy in Hb. destruct r as [[d|] [n|]]; try discriminate.
    destruct d; [discriminate|]. destruct n; [discriminate|]. now injection Hb as <- <-. }
  destruct (format_file_size_returns (Z.of_nat (List.length data))) as (s & ->).
  - split; [lia|]. eapply Hsmall; eauto.
  - reflexivity.
Qed.

(** X19: a run ends without an uncaught exception as long as every file the
    library leaves behind is smaller than one tebibyte (the only thing
    that can escape is the size format on a larger file). *)
Theorem main_no_uncaught (lib : library)
  (temp_dir_audio temp_dir_video : string) (ui : ui_inputs) :
  (forall opts url info listing file data,
     lib opts url true = Returned info listing ->
     In (file, data) listing ->
     Z.of_nat (List.length data) < 1024 ^ 4) ->
  value (main lib temp_dir_audio temp_dir_video ui) = Some tt.
Proof.
  intros Hsmall.
  assert (Hsec : forall m q lbl mi td qual,
            value (download_section m q lbl mi
                     (Download.download lib td (text_input ui) m qual)) = Some tt).
  { intros m q lbl mi td qual.
    destruct (download_value lib td (text_input ui) m qual)
      as [E|(i & l & f & d & t & El & Hin & E)];
      eapply download_section_value; try exact E.
    - intros data filename [=].
    - intros data filename [= <- _]. eapply Hsmall; eauto. }
  unfold main.
  destruct (String.eqb (text_input ui) EmptyString); cbn [negb]; [reflexivity|].
  destruct (valid_url (text_input ui)); cbn [negb]; [|reflexivity].
  rewrite bind_value.
  assert (Hg : exists oi, value (get_video_info lib (text_input ui)) = Some oi).
  { unfold get_video_info.
    destruct (lib info_opts (text_input ui) false) as [x|i l];
      [|destruct (Metadata.derive _)]; eexists; reflexivity. }
  destruct Hg as (oi & ->). destruct oi as [info|]; [|reflexivity].
  rewrite bind_value. simpl value at 1. cbv iota.
  rewrite bind_value.
  assert (H3 : value (if mp3_btn ui
                      then download_section Download.Audio None "Download MP3 File"
                             "audio/mpeg"
                             (Download.download_audio_to_memory lib temp_dir_audio
                                (text_input ui))
                      else ret tt) = Some tt).
  { destruct (mp3_btn ui); [|reflexivity].
    apply (Hsec Download.Audio None _ _ temp_dir_audio "best"). }
  rewrite H3. rewrite bind_value.
  destruct (mp4_btn ui); [|reflexivity].
  match goal with
  | |- context [Download.download_video_to_memory lib temp_dir_video _ ?q] =>
      pose proof (Hsec Download.Video (Some q) "Download MP4 File" "video/mp4"
                    temp_dir_video q) as H4
  end.
  unfold Download.download in H4. rewrite H4. reflexivity.
Qed.

Lemma main_no_uncaught_witness :
  value (main (Samples.lib_leaves Samples.webm_first) "/tmp/a" "/tmp/v"
           (mkUi "https://youtu.be/abc123" true true true 1)) = Some tt.
Proof.
  apply main_no_uncaught.
  intros opts url info listing file data E Hin.
  injection E as _ <-. simpl in Hin.
  destruct Hin as [Hin|[Hin|[ ]]]; injection Hin as _ <-; simpl; lia.
Defined.

(** X20: a produced file of zero bytes is reported as a failed download: the
    run shows the failure notice and offers nothing, although the download
    call itself returned the empty bytes with their filename. *)
Theorem empty_file_reported_failed (m : Download.mode) (quality : option string)
  (label mime : string) (call : io Download.result) (filename : string) :
  value call = Some (Some [], Some filename) ->
  download_section m quality label mime call =
  (Some tt,
   ShowPreparing (Download.mode_name m) quality
     :: trace call ++ [ShowFailed (Download.mode_name m)])%list.
Proof.
  intros Hc. unfold download_section.
  replace (match m with Download.Audio => "audio" | Download.Video => "video" end)
    with (Download.mode_name m) by now destruct m.
  destruct call as [v t]. simpl in Hc. subst v. reflexivity.
Qed.

Lemma empty_file_reported_failed_witness :
  download_section Download.Audio None "Download MP3 File" "audio/mpeg"
    (Download.download_audio_to_memory (Samples.lib_leaves [("audio.mp3", [])])
       "/tmp/a" "u")
  = (Some tt,
     [ShowPreparing "audio" None;
      LibraryCall (Download.opts_of "/tmp/a" Download.Audio "best") "u" true;
      ShowFailed "audio"]).
Proof.
  exact (empty_file_reported_failed Download.Audio None "Download MP3 File"
           "audio/mpeg"
           (Download.download_audio_to_memory (Samples.lib_leaves [("audio.mp3", [])])
              "/tmp/a" "u")
           "My Video.mp3" eq_refl).
Defined.

End AppMore.

(** ** Set order and the URL check *)

Section OrderAndUrl.
Import PyStr Metadata Effects App.

(** X21: sorting a set of labels gives the same list whatever order the set
    hands its members out in. *)
Theorem sorted_labels_order_free (l1 l2 : list string) :
  NoDup l1 -> Permutation l1 l2 ->
  (forall x, In x l1 -> exists h, x = label h) ->
  sorted_by_height_desc l1 = sorted_by_height_desc l2 /\
  exists q, sorted_by_height_desc l1 = Some q /\ Permutation l1 q.
Proof.
  intros Hnd Hp Hl.
  destruct (labels_of l1 Hl) as (hs1 & ->).
  destruct (labels_of l2) as (hs2 & ->).
  { intros x Hx. apply Hl. eapply Permutation_in; [apply Permutation_sym|]; eassumption. }
  assert (Hnd1 : NoDup hs1) by (eapply NoDup_map_inv; eassumption).
  assert (Hp' : Permutation hs1 hs2).
  { assert (Hnd2 : NoDup hs2).
    { eapply NoDup_map_inv. eapply Permutation_NoDup; eassumption. }
    apply NoDup_Permutation; trivial. intros h. split; intros Hh.
    - apply (in_map label) in Hh. apply (Permutation_in _ Hp) in Hh.
      apply in_map_iff in Hh as (k & Hk & Hin). apply label_inj in Hk. now subst.
    - apply (in_map label) in Hh. apply (Permutation_in _ (Permutation_sym Hp)) in Hh.
      apply in_map_iff in Hh as (k & Hk & Hin). apply label_inj in Hk. now subst. }
  split; [now apply sorted_by_height_desc_order_free|].
  destruct (sorted_by_height_desc_labels hs1 Hnd1) as (q & E & _ & Hq).
  exists (map label q). split; trivial. now apply Permutation_map.
Qed.

Lemma sorted_labels_order_free_witness :
  NoDup ["144p"; "1080p"; "720p"] /\
  Permutation ["144p"; "1080p"; "720p"] ["720p"; "144p"; "1080p"] /\
  sorted_by_height_desc ["144p"; "1080p"; "720p"]
  = sorted_by_height_desc ["720p"; "144p"; "1080p"].
Proof.
  assert (Hnd : NoDup ["144p"; "1080p"; "720p"]).
  { repeat constructor; simpl; intros H;
      repeat (destruct H as [H|H]; [discriminate H|]); exact H. }
  assert (Hp : Permutation ["144p"; "1080p"; "720p"] ["720p"; "144p"; "1080p"]).
  { apply Permutation_sym. apply (Permutation_cons_app ["144p"; "1080p"] [] "720p").
    rewrite app_nil_r. apply Permutation_refl. }
  split; [exact Hnd|]. split; [exact Hp|].
  refine (proj1 (sorted_labels_order_free _ _ Hnd Hp _)).
  intros x Hx. simpl in Hx.
  destruct Hx as [Hx|[Hx|[Hx|[ ]]]]; subst x;
    [exists 144 | exists 1080 | exists 720]; reflexivity.
Defined.

(** X22: the URL check is a plain substring test: any text that holds one of
    the three substrings anywhere passes, whatever stands before or after
    it. *)
Theorem valid_url_accepts_anywhere (before s after : string) :
  In s accepted_substrings -> valid_url (before ++ s ++ after) = true.
Proof.
  intros Hs. apply valid_url_spec. exists s. split; trivial.
  now exists before, after.
Qed.

Lemma valid_url_accepts_anywhere_witness :
  In "youtu.be/" accepted_substrings /\
  valid_url ("https://example.org/?next=" ++ "youtu.be/" ++ "x") = true.
Proof.
  assert (H : In "youtu.be/" accepted_substrings) by (simpl; tauto).
  split; [exact H|].
  exact (valid_url_accepts_anywhere "https://example.org/?next=" "youtu.be/" "x" H).
Defined.

End OrderAndUrl.
